(** * Server actions of the Next.js / Prisma demo: a shallow embedding

    The six server actions of [src/app/actions.ts] ([getUsers], [getPosts],
    [getUserById], [createUser], [createPost], [createComment]) are embedded
    as computations over an explicit world: the rows of the store, the
    effects issued so far (store calls with their cache strategy, console
    output, page regeneration, tag invalidation) and the failures the
    external collaborators are going to raise.  A computation returns a
    value or throws, and the world it leaves behind is kept in both cases,
    as in JavaScript. *)

From Stdlib Require Import String ZArith List Bool Lia Arith.
From Stdlib Require Import Sorting.Sorted Sorting.Permutation DecimalString.
Import ListNotations.

Open Scope string_scope.
Open Scope Z_scope.

(** ** JavaScript values the actions handle *)

Module Js.

(** An error object raised by an external collaborator (the store client,
    the cache service, the page regeneration), with its optional [code]
    property and its internal message. *)
Record ForeignError : Type := mkForeign
  { fe_code : option string;
    fe_message : string }.

(** A thrown value.  [NewError m] is the object [new Error(m)] built by
    the actions themselves; [Foreign e] is a collaborator's own object. *)
Inductive JsError : Type :=
| NewError (message : string)
| Foreign (e : ForeignError).

(** [error.code] *)
Definition error_code (e : JsError) : option string :=
  match e with
  | NewError _ => None
  | Foreign e => fe_code e
  end.

(** [error.code === c] *)
Definition code_is (e : JsError) (c : string) : bool :=
  match error_code e with
  | Some c' => String.eqb c' c
  | None => false
  end.

(** A string argument as it arrives at run time: [None] is [undefined]. *)
Definition JsString : Type := option string.

(** [!v] on a string argument: [undefined] and the empty string are falsy. *)
Definition falsy (v : JsString) : bool :=
  match v with
  | None => true
  | Some s => String.eqb s ""
  end.

(** The string held by a truthy argument. *)
Definition str (v : JsString) : string :=
  match v with
  | None => ""
  | Some s => s
  end.

(** A parameter with a default value, [x = d]. *)
Definition default {A : Type} (d : A) (v : option A) : A :=
  match v with
  | None => d
  | Some a => a
  end.

End Js.
Import Js.

(** ** The rows of the store *)

Module Schema.

(** Modelled from the spec: the Prisma schema (prisma/schema.prisma) is not
    among the sources; the three models and their fields are those of the
    data model, with [createdAt] a timestamp in milliseconds. *)
Record User : Type := mkUser
  { user_id : string;
    user_email : string;
    user_name : option string;
    user_createdAt : Z }.

Record Post : Type := mkPost
  { post_id : string;
    post_title : string;
    post_content : option string;
    post_published : bool;
    post_authorId : string;
    post_createdAt : Z }.

Record Comment : Type := mkComment
  { comment_id : string;
    comment_content : string;
    comment_postId : string;
    comment_authorId : string;
    comment_createdAt : Z }.

(** The rows in insertion order, and the number of rows ever inserted,
    from which the store derives identifiers and timestamps. *)
Record DB : Type := mkDB
  { users : list User;
    posts : list Post;
    comments : list Comment;
    serial : nat }.

Definition empty_db : DB :=
  {| users := []; posts := []; comments := []; serial := 0 |}.

End Schema.
Import Schema.

(** ** The query interface of the store client *)

Module Prisma.

Inductive SortOrder : Type := Asc | Desc.

(** [cacheStrategy: { ttl, swr, tags }]; an absent key is [None]. *)
Record CacheStrategy : Type := mkCache
  { ttl : option Z;
    swr : option Z;
    tags : list string }.

(** Arguments of an included to-many relation of a user. *)
Record RelArgs : Type := mkRel
  { rel_orderBy : option SortOrder;
    rel_take : option Z }.

(** [relation: true] *)
Definition rel_true : RelArgs := {| rel_orderBy := None; rel_take := None |}.

(** [_count: { select: { comments, posts } }] *)
Record CountSelect : Type := mkCountSelect
  { sel_comments : bool;
    sel_posts : bool }.

Record UserInclude : Type := mkUserInclude
  { inc_posts : option RelArgs;
    inc_comments : option RelArgs;
    inc_count : option CountSelect }.

Definition no_user_include : UserInclude :=
  {| inc_posts := None; inc_comments := None; inc_count := None |}.

(** Arguments of the included comments of a post. *)
Record CommentsInclude : Type := mkCommentsInclude
  { ci_include_author : bool;
    ci_orderBy : option SortOrder;
    ci_take : option Z }.

Record PostInclude : Type := mkPostInclude
  { pinc_author : bool;
    pinc_comments : option CommentsInclude;
    pinc_count : option CountSelect }.

Record UserFindManyArgs : Type := mkUserFindMany
  { ufm_include : UserInclude;
    ufm_orderBy : option SortOrder;
    ufm_cacheStrategy : option CacheStrategy }.

Record PostFindManyArgs : Type := mkPostFindMany
  { pfm_include : PostInclude;
    pfm_orderBy : option SortOrder;
    pfm_take : option Z;
    pfm_cacheStrategy : option CacheStrategy }.

Record UserFindUniqueArgs : Type := mkUserFindUnique
  { ufu_where_id : string;
    ufu_include : UserInclude;
    ufu_cacheStrategy : option CacheStrategy }.

Record PostFindUniqueArgs : Type := mkPostFindUnique
  { pfu_where_id : string }.

Record UserCreateArgs : Type := mkUserCreate
  { uc_email : string;
    uc_name : option string }.

Record PostCreateArgs : Type := mkPostCreate
  { pc_title : string;
    pc_content : option string;
    pc_published : bool;
    pc_author_connect : string;
    pc_include_author : bool }.

Record CommentCreateArgs : Type := mkCommentCreate
  { cc_content : string;
    cc_post_connect : string;
    cc_author_connect : string;
    cc_include_author : bool;
    cc_include_post : bool }.

(** A request sent to the store. *)
Inductive StoreCall : Type :=
| UserFindMany (a : UserFindManyArgs)
| PostFindMany (a : PostFindManyArgs)
| UserFindUnique (a : UserFindUniqueArgs)
| PostFindUnique (a : PostFindUniqueArgs)
| UserCreate (a : UserCreateArgs)
| PostCreate (a : PostCreateArgs)
| CommentCreate (a : CommentCreateArgs).

(** Whether a request writes to the store. *)
Definition is_create (c : StoreCall) : bool :=
  match c with
  | UserCreate _ | PostCreate _ | CommentCreate _ => true
  | _ => false
  end.

(** The cache strategy a request carries. *)
Definition cache_of (c : StoreCall) : option CacheStrategy :=
  match c with
  | UserFindMany a => ufm_cacheStrategy a
  | PostFindMany a => pfm_cacheStrategy a
  | UserFindUnique a => ufu_cacheStrategy a
  | _ => None
  end.

(** *** Results *)

Record CountOut : Type := mkCountOut
  { cnt_comments : option nat;
    cnt_posts : option nat }.

Record UserOut : Type := mkUserOut
  { uo_row : User;
    uo_posts : option (list Post);
    uo_comments : option (list Comment);
    uo_count : option CountOut }.

Record CommentOut : Type := mkCommentOut
  { co_row : Comment;
    co_author : option User;
    co_post : option Post }.

Record PostOut : Type := mkPostOut
  { po_row : Post;
    po_author : option User;
    po_comments : option (list CommentOut);
    po_count : option CountOut }.

(** *** Evaluation of the queries on the rows *)

Section Ordering.
Context {A : Type} (key : A -> Z).

(** [a] comes no later than [b] in the requested order. *)
Definition before (o : SortOrder) (a b : A) : bool :=
  match o with
  | Asc => key a <=? key b
  | Desc => key b <=? key a
  end.

Fixpoint insert_row (o : SortOrder) (a : A) (l : list A) : list A :=
  match l with
  | [] => [a]
  | b :: l' => if before o a b then a :: l else b :: insert_row o a l'
  end.

(** A stable sort on the key. *)
Fixpoint sort_rows (o : SortOrder) (l : list A) : list A :=
  match l with
  | [] => []
  | a :: l' => insert_row o a (sort_rows o l')
  end.

(** [orderBy: { createdAt: o }], or the store's own order when absent. *)
Definition order_by (o : option SortOrder) (l : list A) : list A :=
  match o with
  | None => l
  | Some o => sort_rows o l
  end.
End Ordering.

(** [take: n]: the first [n] rows of the ordered result, the last [-n]
    when [n] is negative, all of them when absent. *)
Definition take_rows {A : Type} (n : option Z) (l : list A) : list A :=
  match n with
  | None => l
  | Some n =>
      if 0 <=? n then firstn (Z.to_nat n) l
      else skipn (length l - Z.to_nat (- n)) l
  end.

Definition find_user (id : string) (d : DB) : option User :=
  find (fun u => String.eqb (user_id u) id) (users d).

Definition find_post (id : string) (d : DB) : option Post :=
  find (fun p => String.eqb (post_id p) id) (posts d).

Definition posts_of_user (id : string) (d : DB) : list Post :=
  filter (fun p => String.eqb (post_authorId p) id) (posts d).

Definition comments_of_user (id : string) (d : DB) : list Comment :=
  filter (fun c => String.eqb (comment_authorId c) id) (comments d).

Definition comments_of_post (id : string) (d : DB) : list Comment :=
  filter (fun c => String.eqb (comment_postId c) id) (comments d).

Definition count_of (sel : bool) (n : nat) : option nat :=
  if sel then Some n else None.

Definition load_relation {A : Type} (key : A -> Z) (r : RelArgs) (l : list A)
  : list A :=
  take_rows (rel_take r) (order_by key (rel_orderBy r) l).

(** A user row with the relations the query includes. *)
Definition load_user (d : DB) (inc : UserInclude) (u : User) : UserOut :=
  {| uo_row := u;
     uo_posts :=
       option_map (fun r => load_relation post_createdAt r
                              (posts_of_user (user_id u) d)) (inc_posts inc);
     uo_comments :=
       option_map (fun r => load_relation comment_createdAt r
                              (comments_of_user (user_id u) d))
                  (inc_comments inc);
     uo_count :=
       option_map (fun s =>
         {| cnt_comments :=
              count_of (sel_comments s)
                       (length (comments_of_user (user_id u) d));
            cnt_posts :=
              count_of (sel_posts s)
                       (length (posts_of_user (user_id u) d)) |})
         (inc_count inc) |}.

Definition load_comment (d : DB) (with_author with_post : bool) (c : Comment)
  : CommentOut :=
  {| co_row := c;
     co_author := if with_author then find_user (comment_authorId c) d
                  else None;
     co_post := if with_post then find_post (comment_postId c) d else None |}.

(** A post row with the relations the query includes. *)
Definition load_post (d : DB) (inc : PostInclude) (p : Post) : PostOut :=
  {| po_row := p;
     po_author := if pinc_author inc then find_user (post_authorId p) d
                  else None;
     po_comments :=
       option_map (fun ci =>
         map (load_comment d (ci_include_author ci) false)
             (take_rows (ci_take ci)
                (order_by comment_createdAt (ci_orderBy ci)
                   (comments_of_post (post_id p) d))))
         (pinc_comments inc);
     po_count :=
       option_map (fun s =>
         {| cnt_comments :=
              count_of (sel_comments s)
                       (length (comments_of_post (post_id p) d));
            cnt_posts := None |})
         (pinc_count inc) |}.

Definition user_findMany (a : UserFindManyArgs) (d : DB) : list UserOut :=
  map (load_user d (ufm_include a))
      (order_by user_createdAt (ufm_orderBy a) (users d)).

Definition post_findMany (a : PostFindManyArgs) (d : DB) : list PostOut :=
  map (load_post d (pfm_include a))
      (take_rows (pfm_take a)
         (order_by post_createdAt (pfm_orderBy a) (posts d))).

Definition user_findUnique (a : UserFindUniqueArgs) (d : DB)
  : option UserOut :=
  option_map (load_user d (ufu_include a)) (find_user (ufu_where_id a) d).

Definition post_findUnique (a : PostFindUniqueArgs) (d : DB) : option Post :=
  find_post (pfu_where_id a) d.

(** *** Writes *)

(** The identifier and the timestamp the store gives its next row. *)
Definition fresh_id (d : DB) : string :=
  "id_" ++ NilEmpty.string_of_uint (Nat.to_uint (serial d)).

Definition now (d : DB) : Z := Z.of_nat (serial d).

(** The store's own errors, by their code. *)
Definition unique_violation : ForeignError :=
  {| fe_code := Some "P2002";
     fe_message := "Unique constraint failed on the fields: (`email`)" |}.

Definition record_not_found : ForeignError :=
  {| fe_code := Some "P2025";
     fe_message := "No record was found for a connect" |}.

Definition email_taken (email : string) (d : DB) : bool :=
  existsb (fun u => String.eqb (user_email u) email) (users d).

(** Modelled from the spec: the uniqueness of [email], declared in the
    schema that is not among the sources, is enforced by the store, which
    signals a violation with code P2002. *)
Definition user_create (a : UserCreateArgs) (d : DB)
  : ForeignError + (User * DB) :=
  if email_taken (uc_email a) d then inl unique_violation
  else
    let u := {| user_id := fresh_id d;
                user_email := uc_email a;
                user_name := uc_name a;
                user_createdAt := now d |} in
    inr (u, {| users := users d ++ [u];
               posts := posts d;
               comments := comments d;
               serial := S (serial d) |}).

(** [connect] needs the row it names. *)
Definition post_create (a : PostCreateArgs) (d : DB)
  : ForeignError + (PostOut * DB) :=
  match find_user (pc_author_connect a) d with
  | None => inl record_not_found
  | Some author =>
      let p := {| post_id := fresh_id d;
                  post_title := pc_title a;
                  post_content := pc_content a;
                  post_published := pc_published a;
                  post_authorId := pc_author_connect a;
                  post_createdAt := now d |} in
      inr ({| po_row := p;
              po_author := if pc_include_author a then Some author else None;
              po_comments := None;
              po_count := None |},
           {| users := users d;
              posts := posts d ++ [p];
              comments := comments d;
              serial := S (serial d) |})
  end.

Definition comment_create (a : CommentCreateArgs) (d : DB)
  : ForeignError + (CommentOut * DB) :=
  match find_post (cc_post_connect a) d, find_user (cc_author_connect a) d with
  | Some post, Some author =>
      let c := {| comment_id := fresh_id d;
                  comment_content := cc_content a;
                  comment_postId := cc_post_connect a;
                  comment_authorId := cc_author_connect a;
                  comment_createdAt := now d |} in
      inr ({| co_row := c;
              co_author := if cc_include_author a then Some author else None;
              co_post := if cc_include_post a then Some post else None |},
           {| users := users d;
              posts := posts d;
              comments := comments d ++ [c];
              serial := S (serial d) |})
  | _, _ => inl record_not_found
  end.

End Prisma.
Import Prisma.

(** ** The world the actions run in *)

Module Effects.

(** What an action does to the outside, in the order it does it.  A call
    is recorded when it is issued, whether or not it then fails. *)
Inductive Event : Type :=
| EvStore (c : StoreCall)
| EvRevalidatePath (path : string)
| EvInvalidate (tags : list string)
| EvConsoleError (message : string) (error : JsError).

(** [faults] lists, for the calls to external collaborators still to come
    and in their order, whether the collaborator fails and with which
    error; the calls beyond the list succeed. *)
Record World : Type := mkWorld
  { db : DB;
    faults : list (option ForeignError);
    trace : list Event }.

Inductive Result (A : Type) : Type :=
| Ok (a : A)
| Throw (e : JsError).
Arguments Ok {A} a.
Arguments Throw {A} e.

Definition M (A : Type) : Type := World -> Result A * World.

Definition ret {A : Type} (a : A) : M A := fun w => (Ok a, w).

Definition throw {A : Type} (e : JsError) : M A := fun w => (Throw e, w).

Definition bind {A B : Type} (m : M A) (k : A -> M B) : M B :=
  fun w =>
    match m w with
    | (Ok a, w') => k a w'
    | (Throw e, w') => (Throw e, w')
    end.

(** [try { m } catch (error) { h error }] *)
Definition try_catch {A : Type} (m : M A) (h : JsError -> M A) : M A :=
  fun w =>
    match m w with
    | (Ok a, w') => (Ok a, w')
    | (Throw e, w') => h e w'
    end.

Definition emit (ev : Event) (w : World) : World :=
  {| db := db w; faults := faults w; trace := trace w ++ [ev] |}.

(** The failure a plan holds for the next call, if any. *)
Definition planned (plan : list (option ForeignError))
  : option ForeignError :=
  match plan with
  | Some e :: _ => Some e
  | _ => None
  end.

(** The failure planned for the next external call, if any. *)
Definition next_fault (w : World) : option ForeignError :=
  planned (faults w).

(** What a collaborator answers to a call that runs [f] on the rows: the
    planned failure if there is one, what [f] gives otherwise. *)
Definition answer {A : Type} (f : DB -> ForeignError + (A * DB)) (w : World)
  : ForeignError + (A * DB) :=
  match next_fault w with
  | Some e => inl e
  | None => f (db w)
  end.

(** A call to an external collaborator: the call is recorded, the next
    planned outcome is consumed, and the answer is returned or thrown. *)
Definition external {A : Type} (ev : Event)
    (f : DB -> ForeignError + (A * DB)) : M A :=
  fun w =>
    match answer f w with
    | inl e =>
        (Throw (Foreign e),
         {| db := db w; faults := tl (faults w); trace := trace w ++ [ev] |})
    | inr (a, d') =>
        (Ok a,
         {| db := d'; faults := tl (faults w); trace := trace w ++ [ev] |})
    end.

Definition read {A : Type} (f : DB -> A) (d : DB)
  : ForeignError + (A * DB) :=
  inr (f d, d).

(** The store client *)
Definition prisma_user_findMany (a : UserFindManyArgs) : M (list UserOut) :=
  external (EvStore (UserFindMany a)) (read (user_findMany a)).

Definition prisma_post_findMany (a : PostFindManyArgs) : M (list PostOut) :=
  external (EvStore (PostFindMany a)) (read (post_findMany a)).

Definition prisma_user_findUnique (a : UserFindUniqueArgs)
  : M (option UserOut) :=
  external (EvStore (UserFindUnique a)) (read (user_findUnique a)).

Definition prisma_post_findUnique (a : PostFindUniqueArgs) : M (option Post) :=
  external (EvStore (PostFindUnique a)) (read (post_findUnique a)).

Definition prisma_user_create (a : UserCreateArgs) : M User :=
  external (EvStore (UserCreate a)) (user_create a).

Definition prisma_post_create (a : PostCreateArgs) : M PostOut :=
  external (EvStore (PostCreate a)) (post_create a).

Definition prisma_comment_create (a : CommentCreateArgs) : M CommentOut :=
  external (EvStore (CommentCreate a)) (comment_create a).

(** [prisma.$accelerate.invalidate({ tags })] *)
Definition prisma_accelerate_invalidate (tags : list string) : M unit :=
  external (EvInvalidate tags) (read (fun _ => tt)).

(** [revalidatePath(path)] of next/cache *)
Definition revalidatePath (path : string) : M unit :=
  external (EvRevalidatePath path) (read (fun _ => tt)).

(** [console.error(message, error)] *)
Definition console_error (message : string) (error : JsError) : M unit :=
  fun w => (Ok tt, emit (EvConsoleError message error) w).

Declare Scope action_scope.
Delimit Scope action_scope with action.
Notation "x <- m ;; k" := (bind m (fun x => k))
  (at level 61, m at next level, right associativity) : action_scope.
Notation "m ;; k" := (bind m (fun _ => k))
  (at level 61, right associativity) : action_scope.

End Effects.
Import Effects.
Open Scope action_scope.

(** ** The actions *)

Module Actions.

(** The query of [getUsers]. *)
Definition getUsers_query : UserFindManyArgs :=
  {| ufm_include :=
       {| inc_posts := Some rel_true;
          inc_comments := None;
          inc_count :=
            Some {| sel_comments := true; sel_posts := true |} |};
     ufm_orderBy := Some Desc;
     ufm_cacheStrategy :=
       Some {| ttl := Some 60; swr := None; tags := ["users_list"] |} |}.

(** [getUsers()] *)
Definition getUsers : M (list UserOut) :=
  try_catch
    (users <- prisma_user_findMany getUsers_query ;;
     ret users)
    (fun error =>
       console_error "Error fetching users:" error ;;
       throw (NewError "Failed to fetch users")).

(** The query of [getPosts] for a given limit. *)
Definition getPosts_query (limit : Z) : PostFindManyArgs :=
  {| pfm_include :=
       {| pinc_author := true;
          pinc_comments :=
            Some {| ci_include_author := true;
                    ci_orderBy := Some Desc;
                    ci_take := None |};
          pinc_count :=
            Some {| sel_comments := true; sel_posts := false |} |};
     pfm_orderBy := Some Desc;
     pfm_take := Some limit;
     pfm_cacheStrategy :=
       Some {| ttl := None; swr := Some 120; tags := ["posts_list"] |} |}.

(** [getPosts(limit = 5)] *)
Definition getPosts (limit : option Z) : M (list PostOut) :=
  let limit := default 5 limit in
  try_catch
    (posts <- prisma_post_findMany (getPosts_query limit) ;;
     ret posts)
    (fun error =>
       console_error "Error fetching posts: " error ;;
       throw (NewError "Failed to fetch posts")).

(** The query of [getUserById] for a given id. *)
Definition getUserById_query (id : string) : UserFindUniqueArgs :=
  {| ufu_where_id := id;
     ufu_include :=
       {| inc_posts := Some {| rel_orderBy := Some Desc; rel_take := None |};
          inc_comments :=
            Some {| rel_orderBy := Some Desc; rel_take := Some 10 |};
          inc_count :=
            Some {| sel_comments := true; sel_posts := true |} |};
     ufu_cacheStrategy :=
       Some {| ttl := Some 30; swr := Some 60;
               tags := ["user_" ++ id] |} |}.

(** [getUserById(id)] *)
Definition getUserById (id : string) : M UserOut :=
  try_catch
    (user <- prisma_user_findUnique (getUserById_query id) ;;
     match user with
     | None => throw (NewError "User not found")
     | Some user => ret user
     end)
    (fun error =>
       console_error ("Error fetching user with ID " ++ id ++ ":") error ;;
       throw error).

Record CreateUserInput : Type := mkCreateUserInput
  { cu_email : JsString;
    cu_name : option string }.

(** [createUser({ email, name })] *)
Definition createUser (input : CreateUserInput) : M User :=
  let email := cu_email input in
  let name := cu_name input in
  if falsy email then throw (NewError "Email is required")
  else
    try_catch
      (user <- prisma_user_create
          {| uc_email := str email; uc_name := name |} ;;
       revalidatePath "/" ;;
       ret user)
      (fun error =>
         if code_is error "P2002"
         then throw (NewError "A user with this email already exists")
         else throw (NewError "Failed to create user")).

Record CreatePostInput : Type := mkCreatePostInput
  { cp_title : JsString;
    cp_content : option string;
    cp_authorId : JsString;
    cp_published : option bool }.

(** [createPost({ title, content, authorId, published = false })] *)
Definition createPost (input : CreatePostInput) : M PostOut :=
  let title := cp_title input in
  let content := cp_content input in
  let authorId := cp_authorId input in
  let published := default false (cp_published input) in
  if falsy title || falsy authorId
  then throw (NewError "Title and author are required")
  else
    try_catch
      (authorExists <- prisma_user_findUnique
          {| ufu_where_id := str authorId;
             ufu_include := no_user_include;
             ufu_cacheStrategy := None |} ;;
       match authorExists with
       | None => throw (NewError "Author not found")
       | Some _ =>
           post <- prisma_post_create
               {| pc_title := str title;
                  pc_content := content;
                  pc_published := published;
                  pc_author_connect := str authorId;
                  pc_include_author := true |} ;;
           revalidatePath "/" ;;
           ret post
       end)
      (fun error =>
         console_error "Error creating post:" error ;;
         throw error).

Record CreateCommentInput : Type := mkCreateCommentInput
  { cm_content : JsString;
    cm_postId : JsString;
    cm_authorId : JsString }.

(** [createComment({ content, postId, authorId })] *)
Definition createComment (input : CreateCommentInput) : M CommentOut :=
  let content := cm_content input in
  let postId := cm_postId input in
  let authorId := cm_authorId input in
  if falsy content || falsy postId || falsy authorId
  then throw (NewError "Content, post, and author are required")
  else
    try_catch
      (postExists <- prisma_post_findUnique
          {| pfu_where_id := str postId |} ;;
       authorExists <- prisma_user_findUnique
          {| ufu_where_id := str authorId;
             ufu_include := no_user_include;
             ufu_cacheStrategy := None |} ;;
       match postExists with
       | None => throw (NewError "Post not found")
       | Some _ =>
           match authorExists with
           | None => throw (NewError "Author not found")
           | Some _ =>
               comment <- prisma_comment_create
                   {| cc_content := str content;
                      cc_post_connect := str postId;
                      cc_author_connect := str authorId;
                      cc_include_author := true;
                      cc_include_post := true |} ;;
               revalidatePath "/" ;;
               prisma_accelerate_invalidate
                 ["posts_list"; "user_" ++ str authorId] ;;
               ret comment
           end
       end)
      (fun error =>
         console_error "Error creating comment:" error ;;
         throw error).

End Actions.
Import Actions.

(** ** Concrete runs *)

Module Runs.

Definition idle (d : DB) : World := {| db := d; faults := []; trace := [] |}.

Definition failing (d : DB) (plan : list (option ForeignError)) : World :=
  {| db := d; faults := plan; trace := [] |}.

Definition after {A : Type} (m : M A) (w : World) : World := snd (m w).

Definition alice : CreateUserInput :=
  {| cu_email := Some "a@x.com"; cu_name := Some "Alice" |}.

Definition w1 : World := after (createUser alice) (idle empty_db).

Definition post_T : CreatePostInput :=
  {| cp_title := Some "T"; cp_content := None;
     cp_authorId := Some "id_0"; cp_published := None |}.

Definition w2 : World := after (createPost post_T) w1.

Definition comment_hi : CreateCommentInput :=
  {| cm_content := Some "hi"; cm_postId := Some "id_1";
     cm_authorId := Some "id_0" |}.

Definition w3 : World := after (createComment comment_hi) w2.

Definition timeout_error : ForeignError :=
  {| fe_code := Some "P1001";
     fe_message := "Can't reach database server at db.internal:27017" |}.

End Runs.
Import Runs.

(** ** Vocabulary of the properties *)

Module Props.

(** The error kinds of the design, read off the messages of the [Error]
    objects the actions build; anything else is an internal failure. *)
Inductive ErrorKind : Type :=
| ValidationError
| NotFound
| Conflict
| InternalError.

Definition validation_messages : list string :=
  ["Email is required"; "Title and author are required";
   "Content, post, and author are required"].

Definition not_found_messages : list string :=
  ["User not found"; "Author not found"; "Post not found"].

Definition conflict_messages : list string :=
  ["A user with this email already exists"].

Definition mem (s : string) (l : list string) : bool :=
  existsb (String.eqb s) l.

Definition kind_of (e : JsError) : ErrorKind :=
  match e with
  | NewError m =>
      if mem m validation_messages then ValidationError
      else if mem m not_found_messages then NotFound
      else if mem m conflict_messages then Conflict
      else InternalError
  | Foreign _ => InternalError
  end.

(** The events a computation adds to the trace when run in [w]. *)
Definition issued {A : Type} (m : M A) (w : World) : list Event :=
  skipn (length (trace w)) (trace (snd (m w))).

Fixpoint store_calls (t : list Event) : list StoreCall :=
  match t with
  | [] => []
  | EvStore c :: t' => c :: store_calls t'
  | _ :: t' => store_calls t'
  end.

Fixpoint logged (t : list Event) : list (string * JsError) :=
  match t with
  | [] => []
  | EvConsoleError m e :: t' => (m, e) :: logged t'
  | _ :: t' => logged t'
  end.

(** Rows from the most recent to the oldest. *)
Definition newest_first {A : Type} (key : A -> Z) (l : list A) : Prop :=
  StronglySorted (fun a b => key b <= key a) l.

(** The lookup [createPost] and [createComment] make for an author. *)
Definition author_check (id : string) : StoreCall :=
  UserFindUnique {| ufu_where_id := id;
                    ufu_include := no_user_include;
                    ufu_cacheStrategy := None |}.

Definition post_check (id : string) : StoreCall :=
  PostFindUnique {| pfu_where_id := id |}.

Definition post_insert (i : CreatePostInput) : PostCreateArgs :=
  {| pc_title := str (cp_title i);
     pc_content := cp_content i;
     pc_published := default false (cp_published i);
     pc_author_connect := str (cp_authorId i);
     pc_include_author := true |}.

Definition comment_insert (i : CreateCommentInput) : CommentCreateArgs :=
  {| cc_content := str (cm_content i);
     cc_post_connect := str (cm_postId i);
     cc_author_connect := str (cm_authorId i);
     cc_include_author := true;
     cc_include_post := true |}.

(** The fields [createPost] and [createComment] require are present. *)
Definition post_input_ok (i : CreatePostInput) : bool :=
  negb (falsy (cp_title i) || falsy (cp_authorId i)).

Definition comment_input_ok (i : CreateCommentInput) : bool :=
  negb (falsy (cm_content i) || falsy (cm_postId i) || falsy (cm_authorId i)).

(** What is left of a plan after [k] calls. *)
Fixpoint rest_of_plan (k : nat) (plan : list (option ForeignError))
  : list (option ForeignError) :=
  match k with
  | O => plan
  | S k' => tl (rest_of_plan k' plan)
  end.

(** The world [k] calls to collaborators after [w], with rows [d] and the
    events [evs] issued in between. *)
Definition moved (w : World) (d : DB) (k : nat) (evs : list Event) : World :=
  {| db := d;
     faults := rest_of_plan k (faults w);
     trace := (trace w ++ evs)%list |}.

(** The failure planned for the call that comes [k] calls after [w]. *)
Definition fault_at (k : nat) (w : World) : option ForeignError :=
  planned (rest_of_plan k (faults w)).

Definition user_insert (i : CreateUserInput) : UserCreateArgs :=
  {| uc_email := str (cu_email i); uc_name := cu_name i |}.

(** The message [createUser] gives the error it caught. *)
Definition createUser_message (e : JsError) : string :=
  if code_is e "P2002" then "A user with this email already exists"
  else "Failed to create user".

(** A store call of [createPost] fails with [e]: the lookup of the
    author, or the insert when the action gets to it. *)
Definition createPost_store_failure (i : CreatePostInput) (w : World)
    (e : ForeignError) : Prop :=
  fault_at 0 w = Some e \/
  (fault_at 0 w = None /\
   find_user (str (cp_authorId i)) (db w) <> None /\
   fault_at 1 w = Some e).

(** A store call of [createComment] fails with [e]: the lookup of the
    post, the lookup of the author, or the insert when the action gets
    to it. *)
Definition createComment_store_failure (i : CreateCommentInput) (w : World)
    (e : ForeignError) : Prop :=
  fault_at 0 w = Some e \/
  (fault_at 0 w = None /\ fault_at 1 w = Some e) \/
  (fault_at 0 w = None /\ fault_at 1 w = None /\
   find_post (str (cm_postId i)) (db w) <> None /\
   find_user (str (cm_authorId i)) (db w) <> None /\
   fault_at 2 w = Some e).

End Props.
Import Props.

(** ** Sequences of calls and the shape of the store *)

Module Reach.

(** An event that changes something outside the action: a write to the
    store, a page regeneration or a tag invalidation. *)
Definition is_change (ev : Event) : bool :=
  match ev with
  | EvStore c => is_create c
  | EvRevalidatePath _ => true
  | EvInvalidate _ => true
  | EvConsoleError _ _ => false
  end.

Definition known_user (id : string) (d : DB) : bool :=
  match find_user id d with
  | Some _ => true
  | None => false
  end.

Definition known_post (id : string) (d : DB) : bool :=
  match find_post id d with
  | Some _ => true
  | None => false
  end.

(** Every post names a user of the store, every comment a post and a user
    of the store. *)
Definition consistent (d : DB) : bool :=
  forallb (fun p => known_user (post_authorId p) d) (posts d) &&
  forallb (fun c => known_post (comment_postId c) d &&
                    known_user (comment_authorId c) d) (comments d).

(** A call to one of the six actions. *)
Inductive Call : Type :=
| CallGetUsers
| CallGetPosts (limit : option Z)
| CallGetUserById (id : string)
| CallCreateUser (input : CreateUserInput)
| CallCreatePost (input : CreatePostInput)
| CallCreateComment (input : CreateCommentInput).

(** The world a call leaves behind, whether it returns or throws. *)
Definition run_call (c : Call) (w : World) : World :=
  match c with
  | CallGetUsers => snd (getUsers w)
  | CallGetPosts limit => snd (getPosts limit w)
  | CallGetUserById id => snd (getUserById id w)
  | CallCreateUser input => snd (createUser input w)
  | CallCreatePost input => snd (createPost input w)
  | CallCreateComment input => snd (createComment input w)
  end.

Definition run_calls (cs : list Call) (w : World) : World :=
  fold_left (fun w' c => run_call c w') cs w.

End Reach.
Import Reach.

(** ** Ordering and truncation of query results *)

Section SortFacts.
Context {A : Type} (key : A -> Z).

Lemma before_total (o : SortOrder) (a b : A) :
  before key o a b = false -> before key o b a = true.
Proof.
  destruct o; simpl; intros H; apply Z.leb_gt in H; apply Z.leb_le; lia.
Qed.

Lemma before_trans (o : SortOrder) (a b c : A) :
  before key o a b = true -> before key o b c = true ->
  before key o a c = true.
Proof.
  destruct o; simpl; rewrite !Z.leb_le; lia.
Qed.

Lemma insert_row_perm (o : SortOrder) (a : A) (l : list A) :
  Permutation (insert_row key o a l) (a :: l).
Proof.
  induction l as [|b l IH]; simpl.
  - apply Permutation_refl.
  - destruct (before key o a b).
    + apply Permutation_refl.
    + eapply perm_trans; [apply perm_skip, IH | apply perm_swap].
Qed.

Lemma sort_rows_perm (o : SortOrder) (l : list A) :
  Permutation (sort_rows key o l) l.
Proof.
  induction l as [|a l IH]; simpl.
  - apply perm_nil.
  - eapply perm_trans; [apply insert_row_perm | apply perm_skip, IH].
Qed.

Lemma insert_row_sorted (o : SortOrder) (a : A) (l : list A) :
  StronglySorted (fun x y => before key o x y = true) l ->
  StronglySorted (fun x y => before key o x y = true) (insert_row key o a l).
Proof.
  induction 1 as [|b l Hs IH Hb]; simpl.
  - constructor; constructor.
  - destruct (before key o a b) eqn:Hab.
    + constructor; [constructor; assumption|].
      constructor; [assumption|].
      rewrite Forall_forall in *. intros x Hx.
      eapply before_trans; [exact Hab | apply Hb, Hx].
    + constructor; [assumption|].
      rewrite Forall_forall in *. intros x Hx.
      apply (Permutation_in _ (insert_row_perm o a l)) in Hx.
      destruct Hx as [<- | Hx]; [apply before_total, Hab | apply Hb, Hx].
Qed.

Lemma sort_rows_sorted (o : SortOrder) (l : list A) :
  StronglySorted (fun x y => before key o x y = true) (sort_rows key o l).
Proof.
  induction l as [|a l IH]; simpl.
  - constructor.
  - apply insert_row_sorted, IH.
Qed.

Lemma sort_desc_newest_first (l : list A) :
  newest_first key (sort_rows key Desc l).
Proof.
  unfold newest_first.
  pose proof (sort_rows_sorted Desc l) as H.
  induction H as [|a l' Hs IH Ha]; constructor.
  - exact IH.
  - eapply Forall_impl; [|exact Ha]. simpl. intros b Hb.
    apply Z.leb_le, Hb.
Qed.

Lemma firstn_incl (n : nat) (l : list A) (x : A) :
  In x (firstn n l) -> In x l.
Proof.
  intros H. rewrite <- (firstn_skipn n l). apply in_or_app. left. exact H.
Qed.

Lemma newest_first_firstn (n : nat) (l : list A) :
  newest_first key l -> newest_first key (firstn n l).
Proof.
  unfold newest_first. intros H. revert n.
  induction H as [|a l Hs IH Ha]; intros [|n]; simpl; try constructor.
  - apply IH.
  - rewrite Forall_forall in *. intros x Hx.
    apply Ha. eapply firstn_incl; eauto.
Qed.

Lemma take_rows_nonneg (n : Z) (l : list A) :
  0 <= n -> take_rows (Some n) l = firstn (Z.to_nat n) l.
Proof.
  intros H. unfold take_rows.
  destruct (0 <=? n) eqn:E; [reflexivity|].
  apply Z.leb_gt in E. lia.
Qed.

End SortFacts.

(** ** Running the actions *)

Open Scope list_scope.

Lemma skipn_exact {A : Type} (l evs : list A) : skipn (length l) (l ++ evs) = evs.
Proof.
  induction l as [|a l IH]; simpl; [reflexivity | exact IH].
Qed.

Lemma issued_of_trace {A : Type} (m : M A) (w : World) (evs : list Event) :
  trace (snd (m w)) = trace w ++ evs -> issued m w = evs.
Proof.
  unfold issued. intros ->. apply skipn_exact.
Qed.

Lemma app_one_one {A : Type} (l : list A) (a b : A) :
  (l ++ [a]) ++ [b] = l ++ [a; b].
Proof. rewrite <- app_assoc. reflexivity. Qed.

Lemma app_more_one {A : Type} (l : list A) (a : A) (m : list A) (b : A) :
  (l ++ a :: m) ++ [b] = l ++ a :: (m ++ [b]).
Proof. rewrite <- app_assoc. reflexivity. Qed.

Ltac unfold_actions :=
  unfold getUsers, getPosts, getUserById, createUser, createPost, createComment,
    prisma_user_findMany, prisma_post_findMany, prisma_user_findUnique,
    prisma_post_findUnique, prisma_user_create, prisma_post_create,
    prisma_comment_create, prisma_accelerate_invalidate, revalidatePath,
    console_error, try_catch, bind, ret, throw, external, emit.

Ltac tidy_trace := cbn [trace db faults fst snd]; rewrite ?app_more_one; cbn [app].

(** *** The read actions, call by call *)

Lemma getUsers_eq (w : World) :
  getUsers w =
  match next_fault w with
  | Some e =>
      (Throw (NewError "Failed to fetch users"),
       moved w (db w) 1 [EvStore (UserFindMany getUsers_query);
                  EvConsoleError "Error fetching users:" (Foreign e)])
  | None =>
      (Ok (user_findMany getUsers_query (db w)),
       moved w (db w) 1 [EvStore (UserFindMany getUsers_query)])
  end.
Proof.
  unfold_actions. unfold answer, read, moved.
  destruct (next_fault w); tidy_trace; reflexivity.
Qed.

Lemma getPosts_eq (limit : option Z) (w : World) :
  let q := getPosts_query (default 5 limit) in
  getPosts limit w =
  match next_fault w with
  | Some e =>
      (Throw (NewError "Failed to fetch posts"),
       moved w (db w) 1 [EvStore (PostFindMany q);
                  EvConsoleError "Error fetching posts: " (Foreign e)])
  | None =>
      (Ok (post_findMany q (db w)), moved w (db w) 1 [EvStore (PostFindMany q)])
  end.
Proof.
  unfold_actions. unfold answer, read, moved.
  destruct (next_fault w); tidy_trace; reflexivity.
Qed.

Lemma getUserById_eq (id : string) (w : World) :
  let q := getUserById_query id in
  let msg := ("Error fetching user with ID " ++ id ++ ":")%string in
  getUserById id w =
  match next_fault w with
  | Some e =>
      (Throw (Foreign e),
       moved w (db w) 1 [EvStore (UserFindUnique q); EvConsoleError msg (Foreign e)])
  | None =>
      match user_findUnique q (db w) with
      | Some user => (Ok user, moved w (db w) 1 [EvStore (UserFindUnique q)])
      | None =>
          (Throw (NewError "User not found"),
           moved w (db w) 1 [EvStore (UserFindUnique q);
                      EvConsoleError msg (NewError "User not found")])
      end
  end.
Proof.
  unfold_actions. unfold answer, read, moved.
  destruct (next_fault w); tidy_trace; [reflexivity|].
  destruct (user_findUnique _ _); tidy_trace; reflexivity.
Qed.

(** *** The create actions, call by call *)

Ltac unfold_plan :=
  unfold answer, read, next_fault, fault_at, moved;
  cbn [trace db faults fst snd rest_of_plan].

Ltac on_plan :=
  match goal with
  | |- context [planned ?l] => destruct (planned l) eqn:?
  end.

Lemma createUser_eq (i : CreateUserInput) (w : World) :
  let a := user_insert i in
  createUser i w =
  if falsy (cu_email i) then (Throw (NewError "Email is required"), w)
  else
    match answer (user_create a) w with
    | inl e =>
        (Throw (NewError (createUser_message (Foreign e))),
         moved w (db w) 1 [EvStore (UserCreate a)])
    | inr (user, d) =>
        match fault_at 1 w with
        | Some e =>
            (Throw (NewError (createUser_message (Foreign e))),
             moved w d 2 [EvStore (UserCreate a); EvRevalidatePath "/"])
        | None =>
            (Ok user, moved w d 2 [EvStore (UserCreate a); EvRevalidatePath "/"])
        end
    end.
Proof.
  unfold_actions. unfold user_insert, createUser_message.
  destruct (falsy (cu_email i)); [reflexivity|].
  destruct (answer (user_create _) w) as [e|[user d]]; unfold_plan; tidy_trace.
  - destruct (code_is (Foreign e) "P2002"); reflexivity.
  - on_plan; tidy_trace; [|reflexivity].
    destruct (code_is _ "P2002"); reflexivity.
Qed.

Lemma createPost_eq (i : CreatePostInput) (w : World) :
  let id := str (cp_authorId i) in
  let a := post_insert i in
  let log := EvConsoleError "Error creating post:" in
  createPost i w =
  if falsy (cp_title i) || falsy (cp_authorId i)
  then (Throw (NewError "Title and author are required"), w)
  else
    match fault_at 0 w with
    | Some e =>
        (Throw (Foreign e),
         moved w (db w) 1 [EvStore (author_check id); log (Foreign e)])
    | None =>
        match find_user id (db w) with
        | None =>
            (Throw (NewError "Author not found"),
             moved w (db w) 1 [EvStore (author_check id);
                               log (NewError "Author not found")])
        | Some _ =>
            match fault_at 1 w with
            | Some e =>
                (Throw (Foreign e),
                 moved w (db w) 2 [EvStore (author_check id);
                                   EvStore (PostCreate a); log (Foreign e)])
            | None =>
                match post_create a (db w) with
                | inl e =>
                    (Throw (Foreign e),
                     moved w (db w) 2 [EvStore (author_check id);
                                       EvStore (PostCreate a); log (Foreign e)])
                | inr (post, d) =>
                    match fault_at 2 w with
                    | Some e =>
                        (Throw (Foreign e),
                         moved w d 3 [EvStore (author_check id);
                                      EvStore (PostCreate a);
                                      EvRevalidatePath "/"; log (Foreign e)])
                    | None =>
                        (Ok post,
                         moved w d 3 [EvStore (author_check id);
                                      EvStore (PostCreate a);
                                      EvRevalidatePath "/"])
                    end
                end
            end
        end
    end.
Proof.
  unfold_actions. unfold post_insert, author_check.
  destruct (falsy (cp_title i) || falsy (cp_authorId i)); [reflexivity|].
  unfold_plan. unfold user_findUnique. cbn [ufu_where_id].
  destruct (planned (faults w)); tidy_trace; [reflexivity|].
  destruct (find_user _ (db w)); cbn [option_map]; tidy_trace; [|reflexivity].
  unfold_plan.
  destruct (planned (tl (faults w))); tidy_trace; [reflexivity|].
  destruct (post_create _ (db w)) as [e|[post d]]; tidy_trace; [reflexivity|].
  unfold_plan.
  destruct (planned (tl (tl (faults w)))); tidy_trace; reflexivity.
Qed.

Lemma createComment_eq (i : CreateCommentInput) (w : World) :
  let pid := str (cm_postId i) in
  let uid := str (cm_authorId i) in
  let a := comment_insert i in
  let log := EvConsoleError "Error creating comment:" in
  let checks := [EvStore (post_check pid); EvStore (author_check uid)] in
  let tags := ["posts_list"; "user_" ++ uid]%string in
  createComment i w =
  if falsy (cm_content i) || falsy (cm_postId i) || falsy (cm_authorId i)
  then (Throw (NewError "Content, post, and author are required"), w)
  else
    match fault_at 0 w with
    | Some e =>
        (Throw (Foreign e),
         moved w (db w) 1 [EvStore (post_check pid); log (Foreign e)])
    | None =>
        match fault_at 1 w with
        | Some e =>
            (Throw (Foreign e), moved w (db w) 2 (checks ++ [log (Foreign e)]))
        | None =>
            match find_post pid (db w), find_user uid (db w) with
            | None, _ =>
                (Throw (NewError "Post not found"),
                 moved w (db w) 2 (checks ++ [log (NewError "Post not found")]))
            | Some _, None =>
                (Throw (NewError "Author not found"),
                 moved w (db w) 2
                   (checks ++ [log (NewError "Author not found")]))
            | Some _, Some _ =>
                match answer (comment_create a) (moved w (db w) 2 []) with
                | inl e =>
                    (Throw (Foreign e),
                     moved w (db w) 3
                       (checks ++ [EvStore (CommentCreate a); log (Foreign e)]))
                | inr (comment, d) =>
                    match fault_at 3 w with
                    | Some e =>
                        (Throw (Foreign e),
                         moved w d 4
                           (checks ++ [EvStore (CommentCreate a);
                                       EvRevalidatePath "/"; log (Foreign e)]))
                    | None =>
                        match fault_at 4 w with
                        | Some e =>
                            (Throw (Foreign e),
                             moved w d 5
                               (checks ++ [EvStore (CommentCreate a);
                                           EvRevalidatePath "/";
                                           EvInvalidate tags; log (Foreign e)]))
                        | None =>
                            (Ok comment,
                             moved w d 5
                               (checks ++ [EvStore (CommentCreate a);
                                           EvRevalidatePath "/";
                                           EvInvalidate tags]))
                        end
                    end
                end
            end
        end
    end.
Proof.
  unfold_actions. unfold comment_insert, author_check, post_check.
  destruct (falsy (cm_content i) || falsy (cm_postId i) || falsy (cm_authorId i));
    [reflexivity|].
  unfold_plan. unfold user_findUnique, post_findUnique.
  cbn [ufu_where_id pfu_where_id].
  destruct (planned (faults w)); tidy_trace; [reflexivity|].
  unfold_plan.
  destruct (planned (tl (faults w))); tidy_trace; [reflexivity|].
  destruct (find_post _ (db w)); tidy_trace; [|reflexivity].
  destruct (find_user _ (db w)); cbn [option_map]; tidy_trace; [|reflexivity].
  unfold_plan.
  destruct (planned (tl (tl (faults w)))); tidy_trace; [reflexivity|].
  destruct (comment_create _ (db w)) as [e|[comment d]]; tidy_trace;
    [reflexivity|].
  unfold_plan.
  destruct (planned (tl (tl (tl (faults w))))); tidy_trace; [reflexivity|].
  unfold_plan.
  destruct (planned (tl (tl (tl (tl (faults w)))))); tidy_trace; reflexivity.
Qed.

(** ** What the store does on a write *)

Lemma comment_create_inserts (a : CommentCreateArgs) (d d' : DB) (c : CommentOut) :
  comment_create a d = inr (c, d') ->
  comments d' = comments d ++ [co_row c] /\
  users d' = users d /\ posts d' = posts d /\
  comment_content (co_row c) = cc_content a /\
  comment_postId (co_row c) = cc_post_connect a /\
  comment_authorId (co_row c) = cc_author_connect a.
Proof.
  unfold comment_create.
  destruct (find_post _ d); [|discriminate].
  destruct (find_user _ d); [|discriminate].
  intros H. injection H as <- <-. cbn. repeat split; reflexivity.
Qed.

Lemma comment_create_connected (a : CommentCreateArgs) (d : DB) (p : Post) (u : User) :
  find_post (cc_post_connect a) d = Some p ->
  find_user (cc_author_connect a) d = Some u ->
  exists c d', comment_create a d = inr (c, d').
Proof.
  intros Hp Hu. unfold comment_create. rewrite Hp, Hu. eauto.
Qed.

Lemma post_create_inserts (a : PostCreateArgs) (d d' : DB) (p : PostOut) :
  post_create a d = inr (p, d') ->
  posts d' = posts d ++ [po_row p] /\
  users d' = users d /\ comments d' = comments d.
Proof.
  unfold post_create.
  destruct (find_user _ d); [|discriminate].
  intros H. injection H as <- <-. cbn. repeat split; reflexivity.
Qed.

Lemma user_create_inserts (a : UserCreateArgs) (d d' : DB) (u : User) :
  user_create a d = inr (u, d') ->
  users d' = users d ++ [u] /\
  posts d' = posts d /\ comments d' = comments d /\
  user_email u = uc_email a /\ user_name u = uc_name a /\
  email_taken (uc_email a) d = false.
Proof.
  unfold user_create.
  destruct (email_taken _ d) eqn:E; [discriminate|].
  intros H. injection H as <- <-. cbn. repeat split; reflexivity.
Qed.

Lemma answer_inr {A : Type} (f : DB -> ForeignError + (A * DB)) (w : World)
    (a : A) (d : DB) :
  answer f w = inr (a, d) -> next_fault w = None /\ f (db w) = inr (a, d).
Proof.
  unfold answer. destruct (next_fault w); [discriminate | auto].
Qed.

(** ** The cache policy of the reads *)

(** C8: every read passes its cache policy to the store client.  The one
    store call [getUsers] issues carries a 60 second fresh window and the
    tag users_list; the one [getPosts] issues carries a 120 second
    stale-while-revalidate window and the tag posts_list; the one
    [getUserById id] issues carries a 30 second fresh window, a 60 second
    stale window and the tag user_<id>. *)
Theorem reads_pass_cache_policy (w : World) (limit : option Z) (id : string) :
  map cache_of (store_calls (issued getUsers w)) =
    [Some {| ttl := Some 60; swr := None; tags := ["users_list"%string] |}] /\
  map cache_of (store_calls (issued (getPosts limit) w)) =
    [Some {| ttl := None; swr := Some 120; tags := ["posts_list"%string] |}] /\
  map cache_of (store_calls (issued (getUserById id) w)) =
    [Some {| ttl := Some 30; swr := Some 60;
             tags := [("user_" ++ id)%string] |}].
Proof.
  unfold issued. rewrite getUsers_eq, getPosts_eq, getUserById_eq.
  repeat split.
  - destruct (next_fault w); cbn [snd moved trace];
      rewrite skipn_exact; reflexivity.
  - destruct (next_fault w); cbn [snd moved trace];
      rewrite skipn_exact; reflexivity.
  - destruct (next_fault w); [|destruct (user_findUnique _ _)];
      cbn [snd moved trace]; rewrite skipn_exact; reflexivity.
Qed.

(** ** Validation comes first *)

Lemma createUser_message_kind (e : JsError) :
  kind_of (NewError (createUser_message e)) <> ValidationError.
Proof.
  unfold createUser_message. destruct (code_is e "P2002"); discriminate.
Qed.

Ltac thrown H :=
  cbn [fst snd] in H; injection H as <-.

(** C9: when a create action fails with a validation error, a required
    field was missing and the action stopped before any store query,
    console output, page regeneration or invalidation: the world it leaves
    is the world it found. *)
Theorem validation_failure_touches_nothing (w : World) :
  (forall i e, fst (createUser i w) = Throw e ->
     kind_of e = ValidationError ->
     falsy (cu_email i) = true /\ snd (createUser i w) = w) /\
  (forall i e, fst (createPost i w) = Throw e ->
     kind_of e = ValidationError ->
     post_input_ok i = false /\ snd (createPost i w) = w) /\
  (forall i e, fst (createComment i w) = Throw e ->
     kind_of e = ValidationError ->
     comment_input_ok i = false /\ snd (createComment i w) = w).
Proof.
  split; [|split]; intros i e.
  - rewrite createUser_eq. destruct (falsy (cu_email i)); [auto|].
    destruct (answer _ w) as [e'|[u d]]; [|destruct (fault_at 1 w)];
      cbn [fst]; intros H K; try discriminate; injection H as <-;
      exfalso; exact (createUser_message_kind _ K).
  - rewrite createPost_eq. unfold post_input_ok.
    destruct (falsy (cp_title i) || falsy (cp_authorId i)); [auto|].
    destruct (fault_at 0 w); [intros H; thrown H; discriminate|].
    destruct (find_user _ _); [|intros H; thrown H; discriminate].
    destruct (fault_at 1 w); [intros H; thrown H; discriminate|].
    destruct (post_create _ _) as [e'|[p d]]; [intros H; thrown H; discriminate|].
    destruct (fault_at 2 w); intros H; [thrown H|]; discriminate.
  - rewrite createComment_eq. unfold comment_input_ok.
    destruct (falsy (cm_content i) || falsy (cm_postId i) || falsy (cm_authorId i));
      [auto|].
    destruct (fault_at 0 w); [intros H; thrown H; discriminate|].
    destruct (fault_at 1 w); [intros H; thrown H; discriminate|].
    destruct (find_post _ _); [|intros H; thrown H; discriminate].
    destruct (find_user _ _); [|intros H; thrown H; discriminate].
    destruct (answer _ _) as [e'|[c d]]; [intros H; thrown H; discriminate|].
    destruct (fault_at 3 w); [intros H; thrown H; discriminate|].
    destruct (fault_at 4 w); intros H; [thrown H|]; discriminate.
Qed.

(** A create action given a missing field stops at once. *)
Lemma missing_field_stops (w : World) :
  (forall i, falsy (cu_email i) = true ->
     createUser i w = (Throw (NewError "Email is required"), w)) /\
  (forall i, post_input_ok i = false ->
     createPost i w = (Throw (NewError "Title and author are required"), w)) /\
  (forall i, comment_input_ok i = false ->
     createComment i w =
       (Throw (NewError "Content, post, and author are required"), w)).
Proof.
  split; [|split]; intros i H.
  - rewrite createUser_eq, H. reflexivity.
  - rewrite createPost_eq. unfold post_input_ok in H.
    apply negb_false_iff in H. rewrite H. reflexivity.
  - rewrite createComment_eq. unfold comment_input_ok in H.
    apply negb_false_iff in H. rewrite H. reflexivity.
Qed.

Lemma validation_failure_touches_nothing_witness :
  snd (createUser {| cu_email := Some ""%string; cu_name := Some "Bob"%string |} w2)
    = w2 /\
  snd (createPost {| cp_title := None; cp_content := None;
                     cp_authorId := Some "id_0"%string;
                     cp_published := None |} w2) = w2 /\
  snd (createComment {| cm_content := Some "hi"%string; cm_postId := None;
                        cm_authorId := Some "id_0"%string |} w2) = w2.
Proof.
  destruct (validation_failure_touches_nothing w2) as (U & P & C).
  split; [|split].
  - apply (U _ (NewError "Email is required")); reflexivity.
  - apply (P _ (NewError "Title and author are required")); reflexivity.
  - apply (C _ (NewError "Content, post, and author are required"));
      reflexivity.
Defined.

(** ** Side effects of [createComment] *)

(** C7: a [createComment] call that returns a comment has, in this order,
    looked up the post and the author, inserted the comment, signalled the
    regeneration of the root path and asked for the invalidation of exactly
    the tags posts_list and user_<authorId>; the comment returned is the
    row added to the store. *)
Theorem createComment_success_effects (i : CreateCommentInput) (w : World)
    (c : CommentOut) :
  fst (createComment i w) = Ok c ->
  issued (createComment i) w =
    [EvStore (post_check (str (cm_postId i)));
     EvStore (author_check (str (cm_authorId i)));
     EvStore (CommentCreate (comment_insert i));
     EvRevalidatePath "/";
     EvInvalidate ["posts_list"%string;
                   ("user_" ++ str (cm_authorId i))%string]] /\
  comments (db (snd (createComment i w))) = comments (db w) ++ [co_row c] /\
  comment_content (co_row c) = str (cm_content i) /\
  comment_postId (co_row c) = str (cm_postId i) /\
  comment_authorId (co_row c) = str (cm_authorId i).
Proof.
  unfold issued. rewrite createComment_eq.
  destruct (falsy (cm_content i) || falsy (cm_postId i) || falsy (cm_authorId i));
    [discriminate|].
  destruct (fault_at 0 w); [discriminate|].
  destruct (fault_at 1 w); [discriminate|].
  destruct (find_post _ _); [|discriminate].
  destruct (find_user _ _); [|discriminate].
  destruct (answer _ _) as [e|[c' d]] eqn:E; [discriminate|].
  destruct (fault_at 3 w); [discriminate|].
  destruct (fault_at 4 w); [discriminate|].
  cbn [fst snd moved trace db]. intros H. injection H as ->.
  apply answer_inr in E. destruct E as [_ E]. cbn [moved db] in E.
  apply comment_create_inserts in E.
  destruct E as (E1 & _ & _ & E2 & E3 & E4).
  rewrite skipn_exact. repeat split; assumption.
Qed.

Lemma createComment_success_effects_witness :
  issued (createComment comment_hi) w2 =
    [EvStore (post_check "id_1");
     EvStore (author_check "id_0");
     EvStore (CommentCreate (comment_insert comment_hi));
     EvRevalidatePath "/";
     EvInvalidate ["posts_list"%string; "user_id_0"%string]].
Proof.
  refine (proj1 (createComment_success_effects comment_hi w2
                   {| co_row := {| comment_id := "id_2";
                                   comment_content := "hi";
                                   comment_postId := "id_1";
                                   comment_authorId := "id_0";
                                   comment_createdAt := 2 |};
                      co_author := find_user "id_0" (db w2);
                      co_post := find_post "id_1" (db w2) |} _)).
  reflexivity.
Defined.

(** A failure of the page regeneration or of the tag invalidation, which
    both come after the insert inside the same [try], is thrown to the
    caller while the comment stays inserted. *)
Lemma createComment_fails_after_insert (i : CreateCommentInput) (w : World)
    (p : Post) (u : User) (e : ForeignError) :
  comment_input_ok i = true ->
  fault_at 0 w = None -> fault_at 1 w = None -> fault_at 2 w = None ->
  find_post (str (cm_postId i)) (db w) = Some p ->
  find_user (str (cm_authorId i)) (db w) = Some u ->
  fault_at 3 w = Some e \/ (fault_at 3 w = None /\ fault_at 4 w = Some e) ->
  fst (createComment i w) = Throw (Foreign e) /\
  exists c, comments (db (snd (createComment i w))) = comments (db w) ++ [c] /\
            comment_content c = str (cm_content i).
Proof.
  intros Hok H0 H1 H2 Hp Hu H34.
  rewrite createComment_eq.
  unfold comment_input_ok in Hok. apply negb_true_iff in Hok. rewrite Hok.
  rewrite H0, H1, Hp, Hu.
  unfold answer, next_fault. cbn [moved faults db].
  change (planned (rest_of_plan 2 (faults w))) with (fault_at 2 w). rewrite H2.
  destruct (comment_create_connected (comment_insert i) (db w) p u Hp Hu)
    as (c & d & E).
  rewrite E. apply comment_create_inserts in E.
  destruct E as (E1 & _ & _ & E2 & _).
  destruct H34 as [H3 | [H3 H4]].
  - rewrite H3. cbn. split; [reflexivity|]. exists (co_row c). auto.
  - rewrite H3, H4. cbn. split; [reflexivity|]. exists (co_row c). auto.
Qed.

(** C10: there is an execution of [createComment] that inserts the comment
    row and still fails.  With the post and the author in the store and the
    insert done, a failure of the tag invalidation (or of the page
    regeneration before it) is thrown to the caller, and the row stays. *)
Theorem createComment_insert_then_failure :
  exists (i : CreateCommentInput) (w wr : World) (e : ForeignError) (c : Comment),
    (fst (createComment i w) = Throw (Foreign e) /\
     comments (db (snd (createComment i w))) = comments (db w) ++ [c] /\
     issued (createComment i) w =
       [EvStore (post_check (str (cm_postId i)));
        EvStore (author_check (str (cm_authorId i)));
        EvStore (CommentCreate (comment_insert i));
        EvRevalidatePath "/";
        EvInvalidate ["posts_list"%string;
                      ("user_" ++ str (cm_authorId i))%string];
        EvConsoleError "Error creating comment:" (Foreign e)]) /\
    (fst (createComment i wr) = Throw (Foreign e) /\
     comments (db (snd (createComment i wr))) = comments (db wr) ++ [c] /\
     issued (createComment i) wr =
       [EvStore (post_check (str (cm_postId i)));
        EvStore (author_check (str (cm_authorId i)));
        EvStore (CommentCreate (comment_insert i));
        EvRevalidatePath "/";
        EvConsoleError "Error creating comment:" (Foreign e)]).
Proof.
  exists comment_hi,
    (failing (db w2) [None; None; None; None; Some timeout_error]),
    (failing (db w2) [None; None; None; Some timeout_error]),
    timeout_error,
    {| comment_id := "id_2"; comment_content := "hi";
       comment_postId := "id_1"; comment_authorId := "id_0";
       comment_createdAt := 2 |}.
  repeat split; reflexivity.
Qed.

(** ** Referential checks before the inserts *)

(** C3: a [createPost] call with title and author present whose author
    matches no user fails with "Author not found" once the store has
    answered the lookup; whatever the collaborators do it returns no post,
    issues the lookup and no insert, and leaves the rows as they were.  In
    every run the lookup is the first store call and the insert, if there
    is one, the second. *)
Theorem createPost_unknown_author (i : CreatePostInput) (w : World) :
  post_input_ok i = true ->
  find_user (str (cp_authorId i)) (db w) = None ->
  (next_fault w = None ->
     fst (createPost i w) = Throw (NewError "Author not found") /\
     kind_of (NewError "Author not found") = NotFound) /\
  (forall p, fst (createPost i w) <> Ok p) /\
  store_calls (issued (createPost i) w) = [author_check (str (cp_authorId i))] /\
  db (snd (createPost i w)) = db w /\
  (forall w0, exists rest,
     store_calls (issued (createPost i) w0) =
       author_check (str (cp_authorId i)) :: rest /\
     (rest = [] \/ rest = [PostCreate (post_insert i)])).
Proof.
  intros Hok Hu.
  unfold post_input_ok in Hok. apply negb_true_iff in Hok.
  assert (Hall : forall w0, exists rest,
     store_calls (issued (createPost i) w0) =
       author_check (str (cp_authorId i)) :: rest /\
     (rest = [] \/ rest = [PostCreate (post_insert i)])).
  { intros w0. unfold issued. rewrite createPost_eq, Hok.
    destruct (fault_at 0 w0);
      [|destruct (find_user _ (db w0));
        [destruct (fault_at 1 w0);
         [|destruct (post_create _ _) as [e|[p d]];
           [|destruct (fault_at 2 w0)]]|]];
      cbn [snd moved trace]; rewrite skipn_exact; cbn [store_calls];
      eexists; split; try reflexivity; auto. }
  unfold issued. rewrite createPost_eq, Hok, Hu.
  unfold fault_at, next_fault. cbn [rest_of_plan].
  destruct (planned (faults w)); cbn [fst snd moved trace db];
    rewrite skipn_exact; repeat split; try discriminate; auto.
Qed.

Lemma createPost_unknown_author_witness :
  fst (createPost {| cp_title := Some "T"%string; cp_content := None;
                     cp_authorId := Some "does-not-exist"%string;
                     cp_published := None |} w2)
    = Throw (NewError "Author not found") /\
  posts (db (snd (createPost
                    {| cp_title := Some "T"%string; cp_content := None;
                       cp_authorId := Some "does-not-exist"%string;
                       cp_published := None |} w2))) = posts (db w2).
Proof.
  destruct (createPost_unknown_author
              {| cp_title := Some "T"%string; cp_content := None;
                 cp_authorId := Some "does-not-exist"%string;
                 cp_published := None |} w2 eq_refl eq_refl)
    as (T & _ & _ & D & _).
  split.
  - exact (proj1 (T eq_refl)).
  - rewrite D. reflexivity.
Defined.

(** C2: a [createComment] call with content, post and author present whose
    post exists and whose author does not fails with "Author not found"
    once the store has answered both lookups; whatever the collaborators
    do it returns no comment, never throws "Post not found", issues no
    insert and leaves the rows as they were. *)
Theorem createComment_unknown_author (i : CreateCommentInput) (w : World)
    (p : Post) :
  comment_input_ok i = true ->
  find_post (str (cm_postId i)) (db w) = Some p ->
  find_user (str (cm_authorId i)) (db w) = None ->
  (fault_at 0 w = None -> fault_at 1 w = None ->
     fst (createComment i w) = Throw (NewError "Author not found") /\
     kind_of (NewError "Author not found") = NotFound) /\
  (forall c, fst (createComment i w) <> Ok c) /\
  fst (createComment i w) <> Throw (NewError "Post not found") /\
  existsb is_create (store_calls (issued (createComment i) w)) = false /\
  db (snd (createComment i w)) = db w.
Proof.
  intros Hok Hp Hu.
  unfold comment_input_ok in Hok. apply negb_true_iff in Hok.
  unfold issued. rewrite createComment_eq, Hok, Hp, Hu.
  destruct (fault_at 0 w); [|destruct (fault_at 1 w)];
    cbn [fst snd moved trace db]; rewrite skipn_exact;
    repeat split; try discriminate; auto.
Qed.

Lemma createComment_unknown_author_witness :
  fst (createComment {| cm_content := Some "hi"%string;
                        cm_postId := Some "id_1"%string;
                        cm_authorId := Some "nobody"%string |} w2)
    = Throw (NewError "Author not found") /\
  comments (db (snd (createComment
                       {| cm_content := Some "hi"%string;
                          cm_postId := Some "id_1"%string;
                          cm_authorId := Some "nobody"%string |} w2)))
    = comments (db w2).
Proof.
  destruct (createComment_unknown_author
              {| cm_content := Some "hi"%string;
                 cm_postId := Some "id_1"%string;
                 cm_authorId := Some "nobody"%string |} w2
              {| post_id := "id_1"; post_title := "T"; post_content := None;
                 post_published := false; post_authorId := "id_0";
                 post_createdAt := 1 |} eq_refl eq_refl eq_refl)
    as (T & _ & _ & _ & D).
  split.
  - exact (proj1 (T eq_refl eq_refl)).
  - rewrite D. reflexivity.
Defined.

(** ** What the reads return *)

Lemma find_user_some (id : string) (d : DB) (u : User) :
  find_user id d = Some u -> user_id u = id /\ In u (users d).
Proof.
  unfold find_user. intros H. apply find_some in H.
  destruct H as [Hin Heq]. apply String.eqb_eq in Heq. auto.
Qed.

Lemma find_user_none (id : string) (d : DB) :
  find_user id d = None <-> (forall u, In u (users d) -> user_id u <> id).
Proof.
  unfold find_user. split.
  - intros H u Hin Heq.
    pose proof (find_none _ _ H u Hin) as K. cbn in K.
    apply String.eqb_neq in K. contradiction.
  - intros H. destruct (find _ (users d)) as [u|] eqn:E; [|reflexivity].
    apply find_some in E. destruct E as [Hin Heq].
    apply String.eqb_eq in Heq. destruct (H u Hin Heq).
Qed.

Lemma rows_of_loaded_posts (d : DB) (inc : PostInclude) (l : list Post) :
  map po_row (map (load_post d inc) l) = l.
Proof.
  rewrite map_map. cbn. apply map_id.
Qed.

Lemma rows_of_loaded_comments (d : DB) (a p : bool) (l : list Comment) :
  map co_row (map (load_comment d a p) l) = l.
Proof.
  rewrite map_map. cbn. apply map_id.
Qed.

(** C4: [getUserById id], once the store has answered, fails with "User not
    found" when no user row has this id; when one has, it returns that row
    with the user's posts from the newest to the oldest, the first ten of
    the user's comments taken from the newest to the oldest, and the
    numbers of all the user's posts and comments. *)
Theorem getUserById_result (id : string) (w : World) :
  next_fault w = None ->
  match find_user id (db w) with
  | None =>
      fst (getUserById id w) = Throw (NewError "User not found") /\
      kind_of (NewError "User not found") = NotFound
  | Some u =>
      user_id u = id /\ In u (users (db w)) /\
      exists (ps : list Post) (all : list Comment),
        fst (getUserById id w) =
          Ok {| uo_row := u;
                uo_posts := Some ps;
                uo_comments := Some (firstn 10 all);
                uo_count :=
                  Some {| cnt_comments :=
                            Some (length (comments_of_user id (db w)));
                          cnt_posts :=
                            Some (length (posts_of_user id (db w))) |} |} /\
        Permutation ps (posts_of_user id (db w)) /\
        newest_first post_createdAt ps /\
        Permutation all (comments_of_user id (db w)) /\
        newest_first comment_createdAt all /\
        (length (firstn 10 all) <= 10)%nat /\
        newest_first comment_createdAt (firstn 10 all)
  end.
Proof.
  intros Hf. rewrite getUserById_eq, Hf.
  unfold user_findUnique, getUserById_query. cbn [ufu_where_id ufu_include].
  destruct (find_user id (db w)) as [u|] eqn:E; cbn [option_map fst].
  - apply find_user_some in E. destruct E as [<- Hin].
    split; [reflexivity|]. split; [assumption|].
    exists (sort_rows post_createdAt Desc (posts_of_user (user_id u) (db w))),
      (sort_rows comment_createdAt Desc (comments_of_user (user_id u) (db w))).
    split; [reflexivity|].
    split; [apply sort_rows_perm|].
    split; [apply sort_desc_newest_first|].
    split; [apply sort_rows_perm|].
    split; [apply sort_desc_newest_first|].
    split; [apply firstn_le_length|].
    apply newest_first_firstn, sort_desc_newest_first.
  - split; reflexivity.
Qed.

Lemma getUserById_result_witness :
  exists (ps : list Post) (all : list Comment),
    fst (getUserById "id_0" (idle (db w3))) =
      Ok {| uo_row := {| user_id := "id_0"; user_email := "a@x.com";
                         user_name := Some "Alice"%string;
                         user_createdAt := 0 |};
            uo_posts := Some ps;
            uo_comments := Some (firstn 10 all);
            uo_count := Some {| cnt_comments := Some 1%nat;
                                cnt_posts := Some 1%nat |} |} /\
    Permutation ps (posts_of_user "id_0" (db w3)) /\
    Permutation all (comments_of_user "id_0" (db w3)).
Proof.
  pose proof (getUserById_result "id_0" (idle (db w3)) eq_refl) as H.
  cbv beta iota delta [find_user] in H.
  destruct H as (_ & _ & ps & all & R & P1 & _ & P2 & _).
  exists ps, all. repeat split; assumption.
Defined.

(** C5: [getPosts] with a limit that is not negative returns, once the
    store has answered, at most that many posts, the first ones of the
    posts taken from the newest to the oldest; each comes with the user its
    [authorId] names, with its comments from the newest to the oldest, each
    of them with the user its [authorId] names, and with the number of its
    comments.  Without a limit the call is the call with limit 5. *)
Theorem getPosts_result (limit : Z) (w : World) :
  0 <= limit ->
  next_fault w = None ->
  exists (out : list PostOut) (all : list Post),
    fst (getPosts (Some limit) w) = Ok out /\
    Permutation all (posts (db w)) /\
    newest_first post_createdAt all /\
    map po_row out = firstn (Z.to_nat limit) all /\
    Z.of_nat (length out) <= limit /\
    newest_first post_createdAt (map po_row out) /\
    Forall (fun o =>
      po_author o = find_user (post_authorId (po_row o)) (db w) /\
      po_count o =
        Some {| cnt_comments :=
                  Some (length (comments_of_post (post_id (po_row o)) (db w)));
                cnt_posts := None |} /\
      exists cs,
        po_comments o = Some cs /\
        Permutation (map co_row cs)
                    (comments_of_post (post_id (po_row o)) (db w)) /\
        newest_first comment_createdAt (map co_row cs) /\
        Forall (fun c =>
          co_author c = find_user (comment_authorId (co_row c)) (db w)) cs)
      out /\
    getPosts None w = getPosts (Some 5) w.
Proof.
  intros Hl Hf. rewrite getPosts_eq, Hf. cbn [default fst].
  unfold post_findMany, getPosts_query.
  cbn [pfm_take pfm_orderBy pfm_include order_by].
  rewrite take_rows_nonneg by assumption.
  set (inc := {| pinc_author := true; pinc_comments := _; pinc_count := _ |}).
  set (all := sort_rows post_createdAt Desc (posts (db w))).
  exists (map (load_post (db w) inc) (firstn (Z.to_nat limit) all)), all.
  split; [reflexivity|].
  split; [apply sort_rows_perm|].
  split; [apply sort_desc_newest_first|].
  split; [apply rows_of_loaded_posts|].
  split.
  { rewrite length_map.
    pose proof (firstn_le_length (Z.to_nat limit) all). lia. }
  split.
  { rewrite rows_of_loaded_posts.
    apply newest_first_firstn, sort_desc_newest_first. }
  split; [|reflexivity].
  apply Forall_forall. intros o Ho. apply in_map_iff in Ho.
  destruct Ho as (p & <- & _). cbn.
  split; [reflexivity|]. split; [reflexivity|].
  eexists. split; [reflexivity|].
  rewrite rows_of_loaded_comments.
  split; [apply sort_rows_perm|].
  split; [apply sort_desc_newest_first|].
  apply Forall_forall. intros c Hc. apply in_map_iff in Hc.
  destruct Hc as (c0 & <- & _). reflexivity.
Qed.

Lemma getPosts_result_witness :
  exists (out : list PostOut),
    fst (getPosts (Some 3) (idle (db w3))) = Ok out /\
    Z.of_nat (length out) <= 3 /\
    newest_first post_createdAt (map po_row out).
Proof.
  destruct (getPosts_result 3 (idle (db w3))) as (out & all & R & _ & _ & _ & L & S & _).
  - lia.
  - reflexivity.
  - exists out. repeat split; assumption.
Defined.

(** ** Outcomes of [createUser] *)

Lemma email_taken_after_insert (email : string) (d d' : DB) (u : User) :
  users d' = users d ++ [u] -> user_email u = email ->
  email_taken email d' = true.
Proof.
  intros Hu He. unfold email_taken. rewrite Hu, existsb_app. cbn.
  rewrite He, String.eqb_refl. cbn. apply orb_true_r.
Qed.

Lemma createUser_duplicate (i : CreateUserInput) (w : World) :
  falsy (cu_email i) = false ->
  next_fault w = None ->
  email_taken (str (cu_email i)) (db w) = true ->
  fst (createUser i w) =
    Throw (NewError "A user with this email already exists").
Proof.
  intros Hf Hn Ht. rewrite createUser_eq, Hf.
  unfold answer, user_create, user_insert. cbn [uc_email].
  rewrite Hn, Ht. reflexivity.
Qed.

(** C6: [createUser] with an empty or missing email fails at once with the
    validation error "Email is required"; when the insert is answered by
    an error of code P2002, the store's signal of a unique-constraint
    violation, it fails with the conflict error "A user with this email
    already exists" and not with the generic "Failed to create user", which
    is what happens when the email is already taken; when it returns a
    user, that user is the row added to the store, with the email and the
    name given, and a second call with the same email is a conflict. *)
Theorem createUser_outcomes (i : CreateUserInput) (w : World) :
  (falsy (cu_email i) = true ->
     createUser i w = (Throw (NewError "Email is required"), w) /\
     kind_of (NewError "Email is required") = ValidationError) /\
  (forall e, falsy (cu_email i) = false ->
     answer (user_create (user_insert i)) w = inl e ->
     fe_code e = Some "P2002"%string ->
     fst (createUser i w) =
       Throw (NewError "A user with this email already exists") /\
     kind_of (NewError "A user with this email already exists") = Conflict) /\
  (falsy (cu_email i) = false -> next_fault w = None ->
     email_taken (str (cu_email i)) (db w) = true ->
     answer (user_create (user_insert i)) w = inl unique_violation /\
     fst (createUser i w) =
       Throw (NewError "A user with this email already exists")) /\
  (forall u, fst (createUser i w) = Ok u ->
     users (db (snd (createUser i w))) = users (db w) ++ [u] /\
     user_email u = str (cu_email i) /\
     user_name u = cu_name i /\
     (forall i', falsy (cu_email i') = false ->
        str (cu_email i') = str (cu_email i) ->
        next_fault (snd (createUser i w)) = None ->
        fst (createUser i' (snd (createUser i w))) =
          Throw (NewError "A user with this email already exists"))).
Proof.
  split; [|split; [|split]].
  - intros H. rewrite createUser_eq, H. split; reflexivity.
  - intros e Hf Ha Hc. rewrite createUser_eq, Hf, Ha.
    unfold createUser_message, code_is. cbn [fst error_code].
    rewrite Hc. split; reflexivity.
  - intros Hf Hn Ht. split; [|apply createUser_duplicate; assumption].
    unfold answer, user_create, user_insert. cbn [uc_email].
    rewrite Hn, Ht. reflexivity.
  - intros u. rewrite createUser_eq.
    destruct (falsy (cu_email i)) eqn:Hf; [discriminate|].
    destruct (answer _ w) as [e|[u' d]] eqn:Ha; [discriminate|].
    destruct (fault_at 1 w); [discriminate|].
    cbn [fst snd moved db]. intros H. injection H as ->.
    apply answer_inr in Ha. destruct Ha as [_ Ha].
    apply user_create_inserts in Ha.
    destruct Ha as (Hu & _ & _ & He & Hn & _). cbn in He, Hn.
    repeat split; try assumption.
    intros i' Hf' Heq Hn'. apply createUser_duplicate; try assumption.
    cbn [db]. rewrite Heq.
    eapply email_taken_after_insert; eassumption.
Qed.

Lemma createUser_outcomes_witness :
  createUser {| cu_email := None; cu_name := Some "Bob"%string |} w1 =
    (Throw (NewError "Email is required"), w1) /\
  fst (createUser alice (failing (db w1) [Some unique_violation])) =
    Throw (NewError "A user with this email already exists") /\
  fst (createUser alice w1) =
    Throw (NewError "A user with this email already exists") /\
  users (db (snd (createUser alice (idle empty_db)))) =
    [{| user_id := "id_0"; user_email := "a@x.com";
        user_name := Some "Alice"%string; user_createdAt := 0 |}].
Proof.
  split; [|split; [|split]].
  - exact (proj1 (proj1 (createUser_outcomes
                           {| cu_email := None; cu_name := Some "Bob"%string |}
                           w1) eq_refl)).
  - exact (proj1 (proj1 (proj2 (createUser_outcomes alice
                             (failing (db w1) [Some unique_violation])))
                    unique_violation eq_refl eq_refl eq_refl)).
  - exact (proj2 (proj1 (proj2 (proj2 (createUser_outcomes alice w1)))
                    eq_refl eq_refl eq_refl)).
  - exact (proj1 (proj2 (proj2 (proj2 (createUser_outcomes alice
                                         (idle empty_db))))
                    {| user_id := "id_0"; user_email := "a@x.com";
                       user_name := Some "Alice"%string;
                       user_createdAt := 0 |} eq_refl)).
Defined.

(** ** Failures of the store *)

Lemma createUser_message_generic (e : ForeignError) :
  createUser_message (Foreign e) = "A user with this email already exists"%string
  \/ createUser_message (Foreign e) = "Failed to create user"%string.
Proof.
  unfold createUser_message. destruct (code_is _ _); auto.
Qed.

(** C1, as the code has it: when a store call fails with an error that is
    not one of the locally detected ones, [getUsers] and [getPosts] log the
    error and throw their own generic error; [createUser] throws its own
    error, the conflict one for code P2002 and the generic one otherwise;
    [getUserById], [createPost] and [createComment] log the error and throw
    that very error object on to the caller. *)
Theorem store_failure_handling (w : World) (e : ForeignError) :
  (next_fault w = Some e ->
     fst (getUsers w) = Throw (NewError "Failed to fetch users") /\
     logged (issued getUsers w) =
       [("Error fetching users:"%string, Foreign e)]) /\
  (forall limit, next_fault w = Some e ->
     fst (getPosts limit w) = Throw (NewError "Failed to fetch posts") /\
     logged (issued (getPosts limit) w) =
       [("Error fetching posts: "%string, Foreign e)]) /\
  (forall i, falsy (cu_email i) = false ->
     answer (user_create (user_insert i)) w = inl e ->
     fst (createUser i w) = Throw (NewError (createUser_message (Foreign e))) /\
     fst (createUser i w) <> Throw (Foreign e)) /\
  (forall id, next_fault w = Some e ->
     fst (getUserById id w) = Throw (Foreign e) /\
     logged (issued (getUserById id) w) =
       [(("Error fetching user with ID " ++ id ++ ":")%string, Foreign e)]) /\
  (forall i, post_input_ok i = true ->
     createPost_store_failure i w e ->
     fst (createPost i w) = Throw (Foreign e) /\
     logged (issued (createPost i) w) =
       [("Error creating post:"%string, Foreign e)]) /\
  (forall i, comment_input_ok i = true ->
     createComment_store_failure i w e ->
     fst (createComment i w) = Throw (Foreign e) /\
     logged (issued (createComment i) w) =
       [("Error creating comment:"%string, Foreign e)]).
Proof.
  unfold issued.
  split; [|split; [|split; [|split; [|split]]]].
  - intros H. rewrite getUsers_eq, H. cbn [fst snd moved trace].
    rewrite skipn_exact. split; reflexivity.
  - intros limit H. rewrite getPosts_eq, H. cbn [fst snd moved trace].
    rewrite skipn_exact. split; reflexivity.
  - intros i Hf Ha. rewrite createUser_eq, Hf, Ha. cbn [fst].
    split; [reflexivity | discriminate].
  - intros id H. rewrite getUserById_eq, H. cbn [fst snd moved trace].
    rewrite skipn_exact. split; reflexivity.
  - intros i Hok Hs. rewrite createPost_eq.
    unfold post_input_ok in Hok. apply negb_true_iff in Hok. rewrite Hok.
    destruct Hs as [H0 | (H0 & Hu & H1)]; rewrite H0.
    + cbn [fst snd moved trace]. rewrite skipn_exact. split; reflexivity.
    + destruct (find_user _ (db w)); [|contradiction]. rewrite H1.
      cbn [fst snd moved trace]. rewrite skipn_exact. split; reflexivity.
  - intros i Hok Hs. rewrite createComment_eq.
    unfold comment_input_ok in Hok. apply negb_true_iff in Hok. rewrite Hok.
    destruct Hs as [H0 | [(H0 & H1) | (H0 & H1 & Hp & Hu & H2)]];
      rewrite H0.
    + cbn [fst snd moved trace]. rewrite skipn_exact. split; reflexivity.
    + rewrite H1. cbn [fst snd moved trace app].
      rewrite skipn_exact. split; reflexivity.
    + rewrite H1.
      destruct (find_post _ (db w)); [|contradiction].
      destruct (find_user _ (db w)); [|contradiction].
      unfold answer, next_fault. cbn [moved faults].
      change (planned (rest_of_plan 2 (faults w))) with (fault_at 2 w).
      rewrite H2. cbn [fst snd moved trace app].
      rewrite skipn_exact. split; reflexivity.
Qed.

Lemma store_failure_handling_witness :
  fst (getUsers (failing (db w2) [Some timeout_error])) =
    Throw (NewError "Failed to fetch users") /\
  fst (getPosts None (failing (db w2) [Some timeout_error])) =
    Throw (NewError "Failed to fetch posts") /\
  fst (createUser alice (failing empty_db [Some timeout_error])) =
    Throw (NewError "Failed to create user") /\
  fst (getUserById "id_0" (failing (db w2) [Some timeout_error])) =
    Throw (Foreign timeout_error) /\
  fst (createPost post_T (failing (db w2) [None; Some timeout_error])) =
    Throw (Foreign timeout_error) /\
  fst (createComment comment_hi
         (failing (db w2) [None; None; Some timeout_error])) =
    Throw (Foreign timeout_error).
Proof.
  split; [|split; [|split; [|split; [|split]]]].
  - exact (proj1 (proj1 (store_failure_handling
                           (failing (db w2) [Some timeout_error])
                           timeout_error) eq_refl)).
  - exact (proj1 (proj1 (proj2 (store_failure_handling
                                  (failing (db w2) [Some timeout_error])
                                  timeout_error)) None eq_refl)).
  - exact (proj1 (proj1 (proj2 (proj2 (store_failure_handling
                                         (failing empty_db [Some timeout_error])
                                         timeout_error)))
                    alice eq_refl eq_refl)).
  - exact (proj1 (proj1 (proj2 (proj2 (proj2 (store_failure_handling
                                         (failing (db w2) [Some timeout_error])
                                         timeout_error))))
                    "id_0"%string eq_refl)).
  - refine (proj1 (proj1 (proj2 (proj2 (proj2 (proj2 (store_failure_handling
                      (failing (db w2) [None; Some timeout_error])
                      timeout_error)))))
                    post_T eq_refl _)).
    right. repeat split; [discriminate].
  - refine (proj1 (proj2 (proj2 (proj2 (proj2 (proj2 (store_failure_handling
                      (failing (db w2) [None; None; Some timeout_error])
                      timeout_error)))))
                    comment_hi eq_refl _)).
    right. right. repeat split; discriminate.
Defined.

(** C1 does not hold as stated: a store failure reaches the caller of
    [getUserById], [createPost] and [createComment] as the store's own
    error object, and [createUser] logs nothing. *)
Lemma store_error_reaches_caller :
  fst (getUserById "id_0" (failing (db w2) [Some timeout_error])) =
    Throw (Foreign timeout_error) /\
  fst (createPost post_T (failing (db w2) [Some timeout_error])) =
    Throw (Foreign timeout_error) /\
  fst (createComment comment_hi (failing (db w2) [Some timeout_error])) =
    Throw (Foreign timeout_error) /\
  fst (createUser alice (failing empty_db [Some timeout_error])) =
    Throw (NewError "Failed to create user") /\
  logged (issued (createUser alice) (failing empty_db [Some timeout_error])) = [].
Proof.
  repeat split; reflexivity.
Qed.


(** ** More on the reads *)

Lemma rows_of_loaded_users (d : DB) (inc : UserInclude) (l : list User) :
  map uo_row (map (load_user d inc) l) = l.
Proof.
  rewrite map_map. cbn. apply map_id.
Qed.

(** X1: [getUsers], once the store has answered, returns every user row of
    the store once, from the newest to the oldest; each comes with all the
    posts of that user, with the numbers of its posts and of its comments,
    and without a list of comments. *)
Theorem getUsers_result (w : World) :
  next_fault w = None ->
  exists out : list UserOut,
    fst (getUsers w) = Ok out /\
    Permutation (map uo_row out) (users (db w)) /\
    newest_first user_createdAt (map uo_row out) /\
    Forall (fun o =>
      uo_posts o = Some (posts_of_user (user_id (uo_row o)) (db w)) /\
      uo_comments o = None /\
      uo_count o =
        Some {| cnt_comments :=
                  Some (length (comments_of_user (user_id (uo_row o)) (db w)));
                cnt_posts :=
                  Some (length (posts_of_user (user_id (uo_row o)) (db w))) |})
      out.
Proof.
  intros Hf. rewrite getUsers_eq, Hf. cbn [fst].
  unfold user_findMany, getUsers_query. cbn [ufm_include ufm_orderBy order_by].
  eexists. split; [reflexivity|].
  rewrite rows_of_loaded_users.
  split; [apply sort_rows_perm|].
  split; [apply sort_desc_newest_first|].
  apply Forall_forall. intros o Ho. apply in_map_iff in Ho.
  destruct Ho as (u & <- & _). cbn. repeat split; reflexivity.
Qed.

Lemma getUsers_result_witness :
  exists out : list UserOut,
    fst (getUsers (idle (db w3))) = Ok out /\
    Permutation (map uo_row out) (users (db w3)).
Proof.
  destruct (getUsers_result (idle (db w3)) eq_refl) as (out & R & P & _).
  exists out. split; assumption.
Defined.

(** X2: a read changes nothing.  Whatever the store does, [getUsers],
    [getPosts] and [getUserById] leave the rows as they were, issue exactly
    one store call, and issue no write, no page regeneration and no tag
    invalidation. *)
Theorem reads_change_nothing (w : World) (limit : option Z) (id : string) :
  (db (snd (getUsers w)) = db w /\
   length (store_calls (issued getUsers w)) = 1%nat /\
   existsb is_change (issued getUsers w) = false) /\
  (db (snd (getPosts limit w)) = db w /\
   length (store_calls (issued (getPosts limit) w)) = 1%nat /\
   existsb is_change (issued (getPosts limit) w) = false) /\
  (db (snd (getUserById id w)) = db w /\
   length (store_calls (issued (getUserById id) w)) = 1%nat /\
   existsb is_change (issued (getUserById id) w) = false).
Proof.
  unfold issued. rewrite getUsers_eq, getPosts_eq, getUserById_eq.
  split; [|split].
  - destruct (next_fault w); cbn [snd moved trace db];
      rewrite skipn_exact; repeat split; reflexivity.
  - destruct (next_fault w); cbn [snd moved trace db];
      rewrite skipn_exact; repeat split; reflexivity.
  - destruct (next_fault w); [|destruct (user_findUnique _ _)];
      cbn [snd moved trace db]; rewrite skipn_exact;
      repeat split; reflexivity.
Qed.

(** X3: the only error [getUsers] throws is its own "Failed to fetch
    users", the only one [getPosts] throws its own "Failed to fetch posts";
    each is thrown after the store's error has been logged, and the store's
    error is the only thing logged. *)
Theorem list_reads_throw_generic (w : World) (limit : option Z) (e : JsError) :
  (fst (getUsers w) = Throw e ->
     e = NewError "Failed to fetch users" /\
     exists cause,
       next_fault w = Some cause /\
       logged (issued getUsers w) =
         [("Error fetching users:"%string, Foreign cause)]) /\
  (fst (getPosts limit w) = Throw e ->
     e = NewError "Failed to fetch posts" /\
     exists cause,
       next_fault w = Some cause /\
       logged (issued (getPosts limit) w) =
         [("Error fetching posts: "%string, Foreign cause)]).
Proof.
  unfold issued. rewrite getUsers_eq, getPosts_eq.
  destruct (next_fault w) as [cause|]; cbn [fst snd moved trace];
    rewrite !skipn_exact; split; intros H; try discriminate;
    injection H as <-; (split; [reflexivity|]); exists cause;
    split; reflexivity.
Qed.

Lemma list_reads_throw_generic_witness :
  logged (issued getUsers (failing (db w2) [Some timeout_error])) =
    [("Error fetching users:"%string, Foreign timeout_error)] /\
  logged (issued (getPosts (Some 3)) (failing (db w2) [Some timeout_error])) =
    [("Error fetching posts: "%string, Foreign timeout_error)].
Proof.
  pose proof (list_reads_throw_generic (failing (db w2) [Some timeout_error])
                (Some 3) (NewError "Failed to fetch users")) as HU.
  pose proof (list_reads_throw_generic (failing (db w2) [Some timeout_error])
                (Some 3) (NewError "Failed to fetch posts")) as HP.
  destruct (proj1 HU eq_refl) as (_ & c1 & E1 & L1).
  destruct (proj2 HP eq_refl) as (_ & c2 & E2 & L2).
  injection E1 as <-. injection E2 as <-. split; assumption.
Defined.

(** ** More on [createUser] *)

(** X4: whatever the collaborators do, an error thrown by [createUser] is
    one of the three [Error] objects it builds itself, never an error
    object of the store or of the page regeneration. *)
Theorem createUser_throws_its_own (i : CreateUserInput) (w : World)
    (e : JsError) :
  fst (createUser i w) = Throw e ->
  e = NewError "Email is required" \/
  e = NewError "A user with this email already exists" \/
  e = NewError "Failed to create user".
Proof.
  rewrite createUser_eq.
  destruct (falsy (cu_email i)); [intros H; injection H as <-; auto|].
  destruct (answer _ w) as [e'|[u d]];
    [|destruct (fault_at 1 w) as [e'|]; [|discriminate]];
    cbn [fst]; intros H; injection H as <-;
    destruct (createUser_message_generic e') as [-> | ->]; auto.
Qed.

Lemma createUser_throws_its_own_witness :
  fst (createUser alice (failing empty_db [None; Some timeout_error])) =
    Throw (NewError "Failed to create user") /\
  (NewError "Failed to create user" = NewError "Email is required" \/
   NewError "Failed to create user" =
     NewError "A user with this email already exists" \/
   NewError "Failed to create user" = NewError "Failed to create user").
Proof.
  split; [reflexivity|].
  exact (createUser_throws_its_own alice
           (failing empty_db [None; Some timeout_error])
           (NewError "Failed to create user") eq_refl).
Defined.

(** X5: the page regeneration of [createUser] runs after the insert and
    inside the same [try].  When the insert has succeeded and the
    regeneration fails, the call throws the message chosen from the code of
    that failure, "Failed to create user" unless the code is P2002, and the
    new user row stays in the store. *)
Theorem createUser_fails_after_insert (i : CreateUserInput) (w : World)
    (u : User) (d : DB) (e : ForeignError) :
  falsy (cu_email i) = false ->
  answer (user_create (user_insert i)) w = inr (u, d) ->
  fault_at 1 w = Some e ->
  fst (createUser i w) = Throw (NewError (createUser_message (Foreign e))) /\
  users (db (snd (createUser i w))) = users (db w) ++ [u] /\
  user_email u = str (cu_email i) /\
  issued (createUser i) w =
    [EvStore (UserCreate (user_insert i)); EvRevalidatePath "/"].
Proof.
  intros Hf Ha H1. unfold issued. rewrite createUser_eq, Hf, Ha, H1.
  cbn [fst snd moved trace db]. rewrite skipn_exact.
  apply answer_inr in Ha. destruct Ha as [_ Ha].
  apply user_create_inserts in Ha. destruct Ha as (Hu & _ & _ & He & _).
  repeat split; assumption.
Qed.

Lemma createUser_fails_after_insert_witness :
  fst (createUser alice (failing empty_db [None; Some timeout_error])) =
    Throw (NewError "Failed to create user") /\
  users (db (snd (createUser alice
                    (failing empty_db [None; Some timeout_error])))) =
    [{| user_id := "id_0"; user_email := "a@x.com";
        user_name := Some "Alice"%string; user_createdAt := 0 |}].
Proof.
  destruct (createUser_fails_after_insert alice
              (failing empty_db [None; Some timeout_error])
              {| user_id := "id_0"; user_email := "a@x.com";
                 user_name := Some "Alice"%string; user_createdAt := 0 |}
              (db w1) timeout_error eq_refl eq_refl eq_refl)
    as (T & U & _).
  split; [exact T | exact U].
Defined.

(** X6: a [createUser] call that returns a user has issued the insert and
    then the regeneration of the root path, and nothing else; it has
    touched neither the posts nor the comments. *)
Theorem createUser_success_effects (i : CreateUserInput) (w : World) (u : User) :
  fst (createUser i w) = Ok u ->
  issued (createUser i) w =
    [EvStore (UserCreate (user_insert i)); EvRevalidatePath "/"] /\
  posts (db (snd (createUser i w))) = posts (db w) /\
  comments (db (snd (createUser i w))) = comments (db w) /\
  email_taken (str (cu_email i)) (db w) = false.
Proof.
  unfold issued. rewrite createUser_eq.
  destruct (falsy (cu_email i)); [discriminate|].
  destruct (answer _ w) as [e|[u' d]] eqn:Ha; [discriminate|].
  destruct (fault_at 1 w); [discriminate|].
  cbn [fst snd moved trace db]. intros _. rewrite skipn_exact.
  apply answer_inr in Ha. destruct Ha as [_ Ha].
  apply user_create_inserts in Ha.
  destruct Ha as (_ & Hp & Hc & _ & _ & Ht).
  repeat split; assumption.
Qed.

Lemma createUser_success_effects_witness :
  issued (createUser alice) (idle empty_db) =
    [EvStore (UserCreate (user_insert alice)); EvRevalidatePath "/"].
Proof.
  exact (proj1 (createUser_success_effects alice (idle empty_db)
                  {| user_id := "id_0"; user_email := "a@x.com";
                     user_name := Some "Alice"%string; user_createdAt := 0 |}
                  eq_refl)).
Defined.

(** ** More on [createPost] *)

Lemma post_create_result (a : PostCreateArgs) (d d' : DB) (p : PostOut) :
  post_create a d = inr (p, d') ->
  post_title (po_row p) = pc_title a /\
  post_content (po_row p) = pc_content a /\
  post_published (po_row p) = pc_published a /\
  post_authorId (po_row p) = pc_author_connect a /\
  (pc_include_author a = true ->
   exists author, po_author p = Some author /\
                  find_user (pc_author_connect a) d = Some author).
Proof.
  unfold post_create.
  destruct (find_user _ d) as [author|]; [|discriminate].
  intros H. injection H as <- <-. cbn. repeat split.
  intros ->. exists author. split; reflexivity.
Qed.

(** X7: a [createPost] call that returns a post has looked up the author,
    inserted the post and signalled the regeneration of the root path, in
    this order and nothing else.  The post returned is the row added to the
    store: it has the title, the content and the author given, it is
    published only if asked ([published] defaults to false), and it comes
    with the row of its author. *)
Theorem createPost_success (i : CreatePostInput) (w : World) (p : PostOut) :
  fst (createPost i w) = Ok p ->
  issued (createPost i) w =
    [EvStore (author_check (str (cp_authorId i)));
     EvStore (PostCreate (post_insert i));
     EvRevalidatePath "/"] /\
  posts (db (snd (createPost i w))) = posts (db w) ++ [po_row p] /\
  users (db (snd (createPost i w))) = users (db w) /\
  comments (db (snd (createPost i w))) = comments (db w) /\
  post_title (po_row p) = str (cp_title i) /\
  post_content (po_row p) = cp_content i /\
  post_published (po_row p) =
    match cp_published i with Some b => b | None => false end /\
  post_authorId (po_row p) = str (cp_authorId i) /\
  exists author,
    po_author p = Some author /\ user_id author = str (cp_authorId i) /\
    In author (users (db w)).
Proof.
  unfold issued. rewrite createPost_eq.
  destruct (falsy (cp_title i) || falsy (cp_authorId i)); [discriminate|].
  destruct (fault_at 0 w); [discriminate|].
  destruct (find_user _ (db w)); [|discriminate].
  destruct (fault_at 1 w); [discriminate|].
  destruct (post_create _ _) as [e|[p' d]] eqn:E; [discriminate|].
  destruct (fault_at 2 w); [discriminate|].
  cbn [fst snd moved trace db]. intros H. injection H as ->.
  rewrite skipn_exact.
  pose proof (post_create_inserts _ _ _ _ E) as (Hp & Hu & Hc).
  pose proof (post_create_result _ _ _ _ E) as (Ht & Hco & Hpu & Ha & Hau).
  destruct (Hau eq_refl) as (author & Hpa & Hfa).
  apply find_user_some in Hfa. destruct Hfa as [Hid Hin].
  repeat split; try assumption.
  exists author. repeat split; assumption.
Qed.

Lemma createPost_success_witness :
  issued (createPost post_T) w1 =
    [EvStore (author_check "id_0");
     EvStore (PostCreate (post_insert post_T));
     EvRevalidatePath "/"].
Proof.
  exact (proj1 (createPost_success post_T w1
                  {| po_row := {| post_id := "id_1"; post_title := "T";
                                  post_content := None;
                                  post_published := false;
                                  post_authorId := "id_0";
                                  post_createdAt := 1 |};
                     po_author := find_user "id_0" (db w1);
                     po_comments := None;
                     po_count := None |} eq_refl)).
Defined.

(** X8: the page regeneration of [createPost] runs after the insert and
    inside the same [try].  When the author exists, the insert has
    succeeded and the regeneration fails, the call logs that failure and
    throws it, and the new post row stays in the store. *)
Theorem createPost_fails_after_insert (i : CreatePostInput) (w : World)
    (u : User) (e : ForeignError) :
  post_input_ok i = true ->
  fault_at 0 w = None -> fault_at 1 w = None ->
  find_user (str (cp_authorId i)) (db w) = Some u ->
  fault_at 2 w = Some e ->
  fst (createPost i w) = Throw (Foreign e) /\
  logged (issued (createPost i) w) =
    [("Error creating post:"%string, Foreign e)] /\
  exists p, posts (db (snd (createPost i w))) = posts (db w) ++ [p] /\
            post_title p = str (cp_title i) /\
            post_authorId p = str (cp_authorId i).
Proof.
  intros Hok H0 H1 Hu H2. unfold issued. rewrite createPost_eq.
  unfold post_input_ok in Hok. apply negb_true_iff in Hok.
  rewrite Hok, H0, Hu, H1.
  destruct (post_create (post_insert i) (db w)) as [e'|[p d]] eqn:E.
  - unfold post_create, post_insert in E. cbn [pc_author_connect] in E.
    rewrite Hu in E. discriminate.
  - rewrite H2. cbn [fst snd moved trace db]. rewrite skipn_exact.
    pose proof (post_create_inserts _ _ _ _ E) as (Hp & _ & _).
    pose proof (post_create_result _ _ _ _ E) as (Ht & _ & _ & Ha & _).
    split; [reflexivity|]. split; [reflexivity|].
    exists (po_row p). repeat split; assumption.
Qed.

Lemma createPost_fails_after_insert_witness :
  fst (createPost post_T (failing (db w1) [None; None; Some timeout_error])) =
    Throw (Foreign timeout_error) /\
  exists p,
    posts (db (snd (createPost post_T
                      (failing (db w1) [None; None; Some timeout_error])))) =
      posts (db w1) ++ [p].
Proof.
  destruct (createPost_fails_after_insert post_T
              (failing (db w1) [None; None; Some timeout_error])
              {| user_id := "id_0"; user_email := "a@x.com";
                 user_name := Some "Alice"%string; user_createdAt := 0 |}
              timeout_error eq_refl eq_refl eq_refl eq_refl eq_refl)
    as (T & _ & p & P & _).
  split; [exact T | exists p; exact P].
Defined.

(** ** More on [createComment] *)

(** X9: [createComment] looks up the post and the author before it tests
    either answer, and tests the post first.  With the fields present and
    no post of the given id, the call fails with "Post not found" once
    both lookups are answered, whether or not the author exists; both
    lookups have been issued, no insert has, and the rows are unchanged. *)
Theorem createComment_unknown_post (i : CreateCommentInput) (w : World) :
  comment_input_ok i = true ->
  find_post (str (cm_postId i)) (db w) = None ->
  fault_at 0 w = None -> fault_at 1 w = None ->
  fst (createComment i w) = Throw (NewError "Post not found") /\
  store_calls (issued (createComment i) w) =
    [post_check (str (cm_postId i)); author_check (str (cm_authorId i))] /\
  logged (issued (createComment i) w) =
    [("Error creating comment:"%string, NewError "Post not found")] /\
  db (snd (createComment i w)) = db w.
Proof.
  intros Hok Hp H0 H1. unfold issued. rewrite createComment_eq.
  unfold comment_input_ok in Hok. apply negb_true_iff in Hok.
  rewrite Hok, H0, H1, Hp.
  cbn [fst snd moved trace db app]. rewrite skipn_exact.
  repeat split; reflexivity.
Qed.

Lemma createComment_unknown_post_witness :
  fst (createComment {| cm_content := Some "hi"%string;
                        cm_postId := Some "no-post"%string;
                        cm_authorId := Some "nobody"%string |} w2)
    = Throw (NewError "Post not found") /\
  fst (createComment {| cm_content := Some "hi"%string;
                        cm_postId := Some "no-post"%string;
                        cm_authorId := Some "id_0"%string |} w2)
    = Throw (NewError "Post not found").
Proof.
  split.
  - exact (proj1 (createComment_unknown_post
                    {| cm_content := Some "hi"%string;
                       cm_postId := Some "no-post"%string;
                       cm_authorId := Some "nobody"%string |} w2
                    eq_refl eq_refl eq_refl eq_refl)).
  - exact (proj1 (createComment_unknown_post
                    {| cm_content := Some "hi"%string;
                       cm_postId := Some "no-post"%string;
                       cm_authorId := Some "id_0"%string |} w2
                    eq_refl eq_refl eq_refl eq_refl)).
Defined.

(** X10: a [createComment] call that returns a comment returns it with the
    rows of its author and of its post, both rows of the store the call
    found, and has touched neither the users nor the posts. *)
Theorem createComment_returns_relations (i : CreateCommentInput) (w : World)
    (c : CommentOut) :
  fst (createComment i w) = Ok c ->
  (exists author,
     co_author c = Some author /\ user_id author = str (cm_authorId i) /\
     In author (users (db w))) /\
  (exists post,
     co_post c = Some post /\ post_id post = str (cm_postId i) /\
     In post (posts (db w))) /\
  users (db (snd (createComment i w))) = users (db w) /\
  posts (db (snd (createComment i w))) = posts (db w).
Proof.
  rewrite createComment_eq.
  destruct (falsy (cm_content i) || falsy (cm_postId i) || falsy (cm_authorId i));
    [discriminate|].
  destruct (fault_at 0 w); [discriminate|].
  destruct (fault_at 1 w); [discriminate|].
  destruct (find_post _ _) as [post|] eqn:Hp; [|discriminate].
  destruct (find_user _ _) as [author|] eqn:Hu; [|discriminate].
  destruct (answer _ _) as [e|[c' d]] eqn:E; [discriminate|].
  destruct (fault_at 3 w); [discriminate|].
  destruct (fault_at 4 w); [discriminate|].
  cbn [fst snd moved db]. intros H. injection H as ->.
  apply answer_inr in E. destruct E as [_ E]. cbn [moved db] in E.
  pose proof (comment_create_inserts _ _ _ _ E) as (_ & Hus & Hps & _).
  unfold comment_create, comment_insert in E.
  cbn [cc_post_connect cc_author_connect cc_include_author cc_include_post] in E.
  rewrite Hp, Hu in E. injection E as <- <-. cbn [co_author co_post].
  apply find_user_some in Hu. destruct Hu as [Hid Hin].
  unfold find_post in Hp. apply find_some in Hp. destruct Hp as [Hpin Hpid].
  apply String.eqb_eq in Hpid.
  split; [exists author; auto|]. split; [exists post; auto|].
  split; reflexivity.
Qed.

Lemma createComment_returns_relations_witness :
  exists author,
    co_author
      {| co_row := {| comment_id := "id_2"; comment_content := "hi";
                      comment_postId := "id_1"; comment_authorId := "id_0";
                      comment_createdAt := 2 |};
         co_author := find_user "id_0" (db w2);
         co_post := find_post "id_1" (db w2) |} = Some author /\
    user_id author = "id_0"%string.
Proof.
  destruct (createComment_returns_relations comment_hi w2
              {| co_row := {| comment_id := "id_2"; comment_content := "hi";
                              comment_postId := "id_1";
                              comment_authorId := "id_0";
                              comment_createdAt := 2 |};
                 co_author := find_user "id_0" (db w2);
                 co_post := find_post "id_1" (db w2) |} eq_refl)
    as ((author & A & I & _) & _).
  exists author. split; assumption.
Defined.

(** ** What the three rethrowing actions log *)

(** X11: [getUserById], and [createPost] and [createComment] past their
    validation, log every error they throw and nothing else, once and with
    the message of the action: the errors of the collaborators and their
    own "not found" errors alike.  When they return, they have logged
    nothing. *)
Theorem thrown_errors_are_logged (w : World) :
  (forall id,
     match fst (getUserById id w) with
     | Throw e =>
         logged (issued (getUserById id) w) =
           [(("Error fetching user with ID " ++ id ++ ":")%string, e)]
     | Ok _ => logged (issued (getUserById id) w) = []
     end) /\
  (forall i, post_input_ok i = true ->
     match fst (createPost i w) with
     | Throw e =>
         logged (issued (createPost i) w) = [("Error creating post:"%string, e)]
     | Ok _ => logged (issued (createPost i) w) = []
     end) /\
  (forall i, comment_input_ok i = true ->
     match fst (createComment i w) with
     | Throw e =>
         logged (issued (createComment i) w) =
           [("Error creating comment:"%string, e)]
     | Ok _ => logged (issued (createComment i) w) = []
     end).
Proof.
  unfold issued. split; [|split].
  - intros id. rewrite getUserById_eq.
    destruct (next_fault w); [|destruct (user_findUnique _ _)];
      cbn [fst snd moved trace]; rewrite skipn_exact; reflexivity.
  - intros i Hok. rewrite createPost_eq.
    unfold post_input_ok in Hok. apply negb_true_iff in Hok. rewrite Hok.
    destruct (fault_at 0 w);
      [|destruct (find_user _ (db w));
        [destruct (fault_at 1 w);
         [|destruct (post_create _ _) as [e|[p d]];
           [|destruct (fault_at 2 w)]]|]];
      cbn [fst snd moved trace]; rewrite skipn_exact; reflexivity.
  - intros i Hok. rewrite createComment_eq.
    unfold comment_input_ok in Hok. apply negb_true_iff in Hok. rewrite Hok.
    destruct (fault_at 0 w);
      [|destruct (fault_at 1 w);
        [|destruct (find_post _ (db w));
          [destruct (find_user _ (db w));
           [destruct (answer _ _) as [e|[c d]];
            [|destruct (fault_at 3 w); [|destruct (fault_at 4 w)]]|]|]]];
      cbn [fst snd moved trace app]; rewrite skipn_exact; reflexivity.
Qed.

Lemma thrown_errors_are_logged_witness :
  logged (issued (createPost
                    {| cp_title := Some "T"%string; cp_content := None;
                       cp_authorId := Some "nobody"%string;
                       cp_published := None |}) w2) =
    [("Error creating post:"%string, NewError "Author not found")] /\
  logged (issued (createComment comment_hi) w2) = [].
Proof.
  destruct (thrown_errors_are_logged w2) as (_ & P & C).
  split.
  - exact (P {| cp_title := Some "T"%string; cp_content := None;
                cp_authorId := Some "nobody"%string;
                cp_published := None |} eq_refl).
  - exact (C comment_hi eq_refl).
Defined.

(** ** What a call can do to the rows *)

Lemma createUser_rows (i : CreateUserInput) (w : World) :
  db (snd (createUser i w)) = db w \/
  exists u d, user_create (user_insert i) (db w) = inr (u, d) /\
              db (snd (createUser i w)) = d.
Proof.
  rewrite createUser_eq.
  destruct (falsy (cu_email i)); [auto|].
  destruct (answer _ w) as [e|[u d]] eqn:Ha; [auto|].
  apply answer_inr in Ha. destruct Ha as [_ Ha].
  right. exists u, d. split; [assumption|].
  destruct (fault_at 1 w); reflexivity.
Qed.

Lemma createPost_rows (i : CreatePostInput) (w : World) :
  db (snd (createPost i w)) = db w \/
  exists p d, post_create (post_insert i) (db w) = inr (p, d) /\
              db (snd (createPost i w)) = d.
Proof.
  rewrite createPost_eq.
  destruct (falsy (cp_title i) || falsy (cp_authorId i)); [auto|].
  destruct (fault_at 0 w); [auto|].
  destruct (find_user _ (db w)); [|auto].
  destruct (fault_at 1 w); [auto|].
  destruct (post_create _ _) as [e|[p d]] eqn:E; [auto|].
  right. exists p, d. split; [reflexivity|].
  destruct (fault_at 2 w); reflexivity.
Qed.

Lemma createComment_rows (i : CreateCommentInput) (w : World) :
  db (snd (createComment i w)) = db w \/
  exists c d, comment_create (comment_insert i) (db w) = inr (c, d) /\
              db (snd (createComment i w)) = d.
Proof.
  rewrite createComment_eq.
  destruct (falsy (cm_content i) || falsy (cm_postId i) || falsy (cm_authorId i));
    [auto|].
  destruct (fault_at 0 w); [auto|].
  destruct (fault_at 1 w); [auto|].
  destruct (find_post _ (db w)); [|auto].
  destruct (find_user _ (db w)); [|auto].
  destruct (answer _ _) as [e|[c d]] eqn:E; [auto|].
  apply answer_inr in E. destruct E as [_ E]. cbn [moved db] in E.
  right. exists c, d. split; [assumption|].
  destruct (fault_at 3 w); [|destruct (fault_at 4 w)]; reflexivity.
Qed.

(** X12: a create action writes at most one row, and only to its own
    table.  Whatever the collaborators do and whether the call returns or
    throws, [createUser] leaves the users as they were or with one row
    more, of the email given, and never touches posts and comments;
    likewise [createPost] for the posts and [createComment] for the
    comments. *)
Theorem creates_write_one_row_at_most (w : World) :
  (forall i,
     posts (db (snd (createUser i w))) = posts (db w) /\
     comments (db (snd (createUser i w))) = comments (db w) /\
     (users (db (snd (createUser i w))) = users (db w) \/
      exists u, users (db (snd (createUser i w))) = users (db w) ++ [u] /\
                user_email u = str (cu_email i))) /\
  (forall i,
     users (db (snd (createPost i w))) = users (db w) /\
     comments (db (snd (createPost i w))) = comments (db w) /\
     (posts (db (snd (createPost i w))) = posts (db w) \/
      exists p, posts (db (snd (createPost i w))) = posts (db w) ++ [p] /\
                post_authorId p = str (cp_authorId i))) /\
  (forall i,
     users (db (snd (createComment i w))) = users (db w) /\
     posts (db (snd (createComment i w))) = posts (db w) /\
     (comments (db (snd (createComment i w))) = comments (db w) \/
      exists c, comments (db (snd (createComment i w))) = comments (db w) ++ [c] /\
                comment_postId c = str (cm_postId i) /\
                comment_authorId c = str (cm_authorId i))).
Proof.
  split; [|split]; intros i.
  - destruct (createUser_rows i w) as [-> | (u & d & E & ->)]; [auto|].
    apply user_create_inserts in E. destruct E as (Hu & Hp & Hc & He & _).
    repeat split; try assumption. right. exists u. auto.
  - destruct (createPost_rows i w) as [-> | (p & d & E & ->)]; [auto|].
    pose proof (post_create_inserts _ _ _ _ E) as (Hp & Hu & Hc).
    pose proof (post_create_result _ _ _ _ E) as (_ & _ & _ & Ha & _).
    repeat split; try assumption. right. exists (po_row p). auto.
  - destruct (createComment_rows i w) as [-> | (c & d & E & ->)]; [auto|].
    apply comment_create_inserts in E.
    destruct E as (Hc & Hu & Hp & _ & E1 & E2).
    repeat split; try assumption. right. exists (co_row c). auto.
Qed.

(** ** Every post has its author, every comment its post and its author *)

Lemma find_grows {A : Type} (f : A -> bool) (l l' : list A) (a : A) :
  find f l = Some a -> find f (l ++ l') = Some a.
Proof.
  induction l as [|b l IH]; cbn; [discriminate|].
  destruct (f b); [auto | exact IH].
Qed.

Lemma known_user_grows (id : string) (d d' : DB) (l : list User) :
  users d' = users d ++ l -> known_user id d = true -> known_user id d' = true.
Proof.
  unfold known_user, find_user. intros ->.
  destruct (find _ (users d)) as [u|] eqn:E; [|discriminate].
  rewrite (find_grows _ _ l _ E). reflexivity.
Qed.

Lemma known_post_grows (id : string) (d d' : DB) (l : list Post) :
  posts d' = posts d ++ l -> known_post id d = true -> known_post id d' = true.
Proof.
  unfold known_post, find_post. intros ->.
  destruct (find _ (posts d)) as [p|] eqn:E; [|discriminate].
  rewrite (find_grows _ _ l _ E). reflexivity.
Qed.

Lemma consistent_spec (d : DB) :
  consistent d = true <->
  (forall p, In p (posts d) -> known_user (post_authorId p) d = true) /\
  (forall c, In c (comments d) ->
     known_post (comment_postId c) d = true /\
     known_user (comment_authorId c) d = true).
Proof.
  unfold consistent. rewrite andb_true_iff, !forallb_forall.
  split; intros [H1 H2]; (split; [exact H1|]); intros c Hc.
  - apply andb_true_iff, H2, Hc.
  - apply andb_true_iff, H2, Hc.
Qed.

Lemma consistent_grows (d d' : DB) (lu : list User) (lp : list Post)
    (lc : list Comment) :
  users d' = users d ++ lu ->
  posts d' = posts d ++ lp ->
  comments d' = comments d ++ lc ->
  (forall p, In p lp -> known_user (post_authorId p) d' = true) ->
  (forall c, In c lc ->
     known_post (comment_postId c) d' = true /\
     known_user (comment_authorId c) d' = true) ->
  consistent d = true -> consistent d' = true.
Proof.
  intros Hu Hp Hc Np Nc H. apply consistent_spec in H. destruct H as [H1 H2].
  apply consistent_spec. split.
  - intros p Hin. rewrite Hp in Hin. apply in_app_or in Hin.
    destruct Hin as [Hin | Hin]; [|auto].
    eapply known_user_grows; eauto.
  - intros c Hin. rewrite Hc in Hin. apply in_app_or in Hin.
    destruct Hin as [Hin | Hin]; [|auto].
    destruct (H2 c Hin) as [K1 K2]. split.
    + eapply known_post_grows; eauto.
    + eapply known_user_grows; eauto.
Qed.

Lemma user_create_consistent (a : UserCreateArgs) (d d' : DB) (u : User) :
  user_create a d = inr (u, d') -> consistent d = true -> consistent d' = true.
Proof.
  intros E. apply user_create_inserts in E. destruct E as (Hu & Hp & Hc & _).
  apply (consistent_grows d d' [u] [] []);
    rewrite ?app_nil_r; try assumption; intros x [].
Qed.

Lemma post_create_consistent (a : PostCreateArgs) (d d' : DB) (p : PostOut) :
  post_create a d = inr (p, d') -> consistent d = true -> consistent d' = true.
Proof.
  intros E.
  pose proof (post_create_inserts _ _ _ _ E) as (Hp & Hu & Hc).
  pose proof (post_create_result _ _ _ _ E) as (_ & _ & _ & Ha & _).
  apply (consistent_grows d d' [] [po_row p] []);
    rewrite ?app_nil_r; try assumption; [|intros x []].
  intros x [<- | []]. rewrite Ha.
  unfold known_user, find_user. rewrite Hu. fold (find_user (pc_author_connect a) d).
  unfold post_create in E.
  destruct (find_user (pc_author_connect a) d); [reflexivity | discriminate].
Qed.

Lemma comment_create_consistent (a : CommentCreateArgs) (d d' : DB)
    (c : CommentOut) :
  comment_create a d = inr (c, d') -> consistent d = true ->
  consistent d' = true.
Proof.
  intros E.
  pose proof (comment_create_inserts _ _ _ _ E) as (Hc & Hu & Hp & _ & E1 & E2).
  apply (consistent_grows d d' [] [] [co_row c]);
    rewrite ?app_nil_r; try assumption; [intros x []|].
  intros x [<- | []]. rewrite E1, E2.
  unfold known_post, known_user, find_post, find_user. rewrite Hu, Hp.
  fold (find_post (cc_post_connect a) d). fold (find_user (cc_author_connect a) d).
  unfold comment_create in E.
  destruct (find_post (cc_post_connect a) d); [|discriminate].
  destruct (find_user (cc_author_connect a) d); [|discriminate].
  split; reflexivity.
Qed.

Lemma reads_keep_rows (w : World) (limit : option Z) (id : string) :
  db (snd (getUsers w)) = db w /\
  db (snd (getPosts limit w)) = db w /\
  db (snd (getUserById id w)) = db w.
Proof.
  rewrite getUsers_eq, getPosts_eq, getUserById_eq.
  destruct (next_fault w); [|destruct (user_findUnique _ _)];
    repeat split; reflexivity.
Qed.

Lemma run_call_consistent (c : Call) (w : World) :
  consistent (db w) = true -> consistent (db (run_call c w)) = true.
Proof.
  intros H. destruct c as [|limit|id|i|i|i]; cbn [run_call].
  - destruct (reads_keep_rows w None ""%string) as (-> & _). exact H.
  - destruct (reads_keep_rows w limit ""%string) as (_ & -> & _). exact H.
  - destruct (reads_keep_rows w None id) as (_ & _ & ->). exact H.
  - destruct (createUser_rows i w) as [-> | (u & d & E & ->)]; [exact H|].
    eapply user_create_consistent; eauto.
  - destruct (createPost_rows i w) as [-> | (p & d & E & ->)]; [exact H|].
    eapply post_create_consistent; eauto.
  - destruct (createComment_rows i w) as [-> | (c & d & E & ->)]; [exact H|].
    eapply comment_create_consistent; eauto.
Qed.

(** X13: the actions keep the store consistent.  If every post names a
    user of the store and every comment a post and a user of the store,
    this still holds after any sequence of calls to the six actions,
    whatever their arguments, whichever of them throw and whatever the
    collaborators do; in particular it holds of every store built from the
    empty one through the actions. *)
Theorem calls_keep_consistency (cs : list Call) (w : World) :
  consistent (db w) = true -> consistent (db (run_calls cs w)) = true.
Proof.
  revert w. induction cs as [|c cs IH]; intros w H; cbn.
  - exact H.
  - apply IH, run_call_consistent, H.
Qed.

Lemma calls_keep_consistency_witness :
  consistent
    (db (run_calls
           [CallCreateUser alice; CallCreatePost post_T; CallGetUsers;
            CallCreateComment comment_hi; CallGetPosts None;
            CallCreateComment {| cm_content := Some "x"%string;
                                 cm_postId := Some "id_9"%string;
                                 cm_authorId := Some "id_0"%string |}]
           (failing empty_db
              [None; None; None; None; Some timeout_error]))) = true.
Proof.
  apply calls_keep_consistency. reflexivity.
Defined.

(** ** More on what the reads return *)

Lemma take_rows_incl {A : Type} (n : option Z) (l : list A) (x : A) :
  In x (take_rows n l) -> In x l.
Proof.
  unfold take_rows. destruct n as [n|]; [|auto].
  destruct (0 <=? n).
  - apply firstn_incl.
  - intros H. rewrite <- (firstn_skipn (length l - Z.to_nat (- n)) l).
    apply in_or_app. right. exact H.
Qed.

Lemma known_user_found (id : string) (d : DB) :
  known_user id d = true ->
  exists u, find_user id d = Some u /\ user_id u = id.
Proof.
  unfold known_user. destruct (find_user id d) as [u|] eqn:E; [|discriminate].
  intros _. exists u. split; [reflexivity|].
  apply find_user_some in E. apply E.
Qed.

Lemma in_comments_of_post (c : Comment) (id : string) (d : DB) :
  In c (comments_of_post id d) -> In c (comments d).
Proof.
  unfold comments_of_post. intros H. apply filter_In in H. apply H.
Qed.

(** X14: on a consistent store, and so on every store built through the
    actions, each post [getPosts] returns, for any limit, comes with the
    row of its author and each of its comments with the row of its author;
    the comments are all the comments of the post, so the count returned
    with the post is the length of the list returned with it. *)
Theorem getPosts_relations_present (limit : option Z) (w : World)
    (out : list PostOut) :
  consistent (db w) = true ->
  fst (getPosts limit w) = Ok out ->
  Forall (fun o =>
    (exists a, po_author o = Some a /\ user_id a = post_authorId (po_row o)) /\
    exists cs,
      po_comments o = Some cs /\
      po_count o = Some {| cnt_comments := Some (length cs);
                           cnt_posts := None |} /\
      Forall (fun c =>
        comment_postId (co_row c) = post_id (po_row o) /\
        exists a, co_author c = Some a /\
                  user_id a = comment_authorId (co_row c)) cs) out.
Proof.
  intros Hc. apply consistent_spec in Hc. destruct Hc as [Hp Hcm].
  rewrite getPosts_eq. destruct (next_fault w); [discriminate|].
  cbn [fst]. intros H. injection H as <-.
  unfold post_findMany, getPosts_query.
  cbn [pfm_take pfm_orderBy pfm_include order_by].
  apply Forall_forall. intros o Ho. apply in_map_iff in Ho.
  destruct Ho as (p & <- & Hin).
  apply take_rows_incl in Hin.
  apply (Permutation_in _ (sort_rows_perm post_createdAt Desc (posts (db w))))
    in Hin.
  cbn. split.
  - destruct (known_user_found _ _ (Hp p Hin)) as (a & -> & Ha). eauto.
  - eexists. split; [reflexivity|]. split.
    + rewrite length_map.
      rewrite (Permutation_length
                 (sort_rows_perm comment_createdAt Desc
                    (comments_of_post (post_id p) (db w)))).
      reflexivity.
    + apply Forall_forall. intros c Hcin. apply in_map_iff in Hcin.
      destruct Hcin as (c0 & <- & Hc0). cbn.
      apply (Permutation_in _ (sort_rows_perm comment_createdAt Desc
                                 (comments_of_post (post_id p) (db w)))) in Hc0.
      split.
      * unfold comments_of_post in Hc0. apply filter_In in Hc0.
        apply String.eqb_eq, Hc0.
      * apply in_comments_of_post in Hc0.
        destruct (Hcm c0 Hc0) as [_ K].
        destruct (known_user_found _ _ K) as (a & -> & Ha). eauto.
Qed.

Lemma getPosts_relations_present_witness :
  exists out : list PostOut,
    fst (getPosts (Some 3) (idle (db w3))) = Ok out /\
    Forall (fun o => exists a, po_author o = Some a /\
                               user_id a = post_authorId (po_row o)) out.
Proof.
  eexists. split; [reflexivity|].
  eapply Forall_impl;
    [|exact (getPosts_relations_present (Some 3) (idle (db w3)) _
               eq_refl eq_refl)].
  intros o H. exact (proj1 H).
Defined.

(** X15: the counts [getUserById] returns are not capped.  The posts
    returned are as many as the count of posts says, while the comments
    returned are the count of comments or ten, whichever is less. *)
Theorem getUserById_counts (id : string) (w : World) (out : UserOut) :
  fst (getUserById id w) = Ok out ->
  exists (ps : list Post) (cs : list Comment) (n m : nat),
    uo_posts out = Some ps /\
    uo_comments out = Some cs /\
    uo_count out = Some {| cnt_comments := Some n; cnt_posts := Some m |} /\
    length ps = m /\
    length cs = Nat.min 10 n /\
    n = length (comments_of_user id (db w)) /\
    user_id (uo_row out) = id.
Proof.
  rewrite getUserById_eq. destruct (next_fault w); [discriminate|].
  unfold user_findUnique, getUserById_query. cbn [ufu_where_id ufu_include].
  destruct (find_user id (db w)) as [u|] eqn:E; cbn [option_map fst];
    [|discriminate].
  apply find_user_some in E. destruct E as [<- _].
  intros H. injection H as <-. cbn.
  do 4 eexists. repeat split.
  - apply Permutation_length, sort_rows_perm.
  - rewrite length_firstn.
    rewrite (Permutation_length (sort_rows_perm comment_createdAt Desc _)).
    reflexivity.
Qed.

Lemma getUserById_counts_witness :
  exists (ps : list Post) (cs : list Comment) (n m : nat),
    uo_count
      {| uo_row := {| user_id := "id_0"; user_email := "a@x.com";
                      user_name := Some "Alice"%string;
                      user_createdAt := 0 |};
         uo_posts := Some (posts (db w3));
         uo_comments := Some (comments (db w3));
         uo_count := Some {| cnt_comments := Some 1%nat;
                             cnt_posts := Some 1%nat |} |} =
      Some {| cnt_comments := Some n; cnt_posts := Some m |} /\
    length ps = m /\ length cs = Nat.min 10 n.
Proof.
  destruct (getUserById_counts "id_0" (idle (db w3)) _ eq_refl)
    as (ps & cs & n & m & _ & _ & C & P & L & _).
  exists ps, cs, n, m. repeat split; assumption.
Defined.



(** ** When the create actions return *)

Lemma createUser_returns (i : CreateUserInput) (w : World) :
  falsy (cu_email i) = false ->
  email_taken (str (cu_email i)) (db w) = false ->
  fault_at 0 w = None -> fault_at 1 w = None ->
  exists u, fst (createUser i w) = Ok u.
Proof.
  intros Hf Ht H0 H1. rewrite createUser_eq, Hf.
  unfold answer. change (next_fault w) with (fault_at 0 w). rewrite H0.
  unfold user_create, user_insert. cbn [uc_email]. rewrite Ht, H1.
  eexists. reflexivity.
Qed.

Lemma createPost_returns (i : CreatePostInput) (w : World) (u : User) :
  post_input_ok i = true ->
  find_user (str (cp_authorId i)) (db w) = Some u ->
  fault_at 0 w = None -> fault_at 1 w = None -> fault_at 2 w = None ->
  exists p, fst (createPost i w) = Ok p.
Proof.
  intros Hok Hu H0 H1 H2. rewrite createPost_eq.
  unfold post_input_ok in Hok. apply negb_true_iff in Hok.
  rewrite Hok, H0, Hu, H1.
  unfold post_create, post_insert. cbn [pc_author_connect]. rewrite Hu, H2.
  eexists. reflexivity.
Qed.

Lemma createComment_returns (i : CreateCommentInput) (w : World)
    (p : Post) (u : User) :
  comment_input_ok i = true ->
  find_post (str (cm_postId i)) (db w) = Some p ->
  find_user (str (cm_authorId i)) (db w) = Some u ->
  fault_at 0 w = None -> fault_at 1 w = None -> fault_at 2 w = None ->
  fault_at 3 w = None -> fault_at 4 w = None ->
  exists c, fst (createComment i w) = Ok c.
Proof.
  intros Hok Hp Hu H0 H1 H2 H3 H4. rewrite createComment_eq.
  unfold comment_input_ok in Hok. apply negb_true_iff in Hok.
  rewrite Hok, H0, H1, Hp, Hu.
  unfold answer, next_fault. cbn [moved faults db].
  change (planned (rest_of_plan 2 (faults w))) with (fault_at 2 w). rewrite H2.
  unfold comment_create, comment_insert.
  cbn [cc_post_connect cc_author_connect]. rewrite Hp, Hu, H3, H4.
  eexists. reflexivity.
Qed.

(** X17: the create actions return when nothing stands in the way.  With
    no collaborator failing, [createUser] returns a user when the email is
    present and not taken, [createPost] a post when title and author are
    present and the author exists, [createComment] a comment when its three
    fields are present and the post and the author exist. *)
Theorem creates_return (w : World) :
  fault_at 0 w = None -> fault_at 1 w = None -> fault_at 2 w = None ->
  fault_at 3 w = None -> fault_at 4 w = None ->
  (forall i, falsy (cu_email i) = false ->
     email_taken (str (cu_email i)) (db w) = false ->
     exists u, fst (createUser i w) = Ok u) /\
  (forall i, post_input_ok i = true ->
     known_user (str (cp_authorId i)) (db w) = true ->
     exists p, fst (createPost i w) = Ok p) /\
  (forall i, comment_input_ok i = true ->
     known_post (str (cm_postId i)) (db w) = true ->
     known_user (str (cm_authorId i)) (db w) = true ->
     exists c, fst (createComment i w) = Ok c).
Proof.
  intros H0 H1 H2 H3 H4. split; [|split].
  - intros i Hf Ht. apply createUser_returns; assumption.
  - intros i Hok Hu. unfold known_user in Hu.
    destruct (find_user _ (db w)) as [u|] eqn:E; [|discriminate].
    eapply createPost_returns; eassumption.
  - intros i Hok Hp Hu. unfold known_post in Hp. unfold known_user in Hu.
    destruct (find_post _ (db w)) as [p|] eqn:Ep; [|discriminate].
    destruct (find_user _ (db w)) as [u|] eqn:Eu; [|discriminate].
    eapply createComment_returns; eassumption.
Qed.

Lemma creates_return_witness :
  (exists u, fst (createUser {| cu_email := Some "b@x.com"%string;
                                cu_name := None |} w2) = Ok u) /\
  (exists p, fst (createPost post_T w2) = Ok p) /\
  (exists c, fst (createComment comment_hi w2) = Ok c).
Proof.
  destruct (creates_return w2 eq_refl eq_refl eq_refl eq_refl eq_refl)
    as (U & P & C).
  split; [|split].
  - exact (U {| cu_email := Some "b@x.com"%string; cu_name := None |}
             eq_refl eq_refl).
  - exact (P post_T eq_refl eq_refl).
  - exact (C comment_hi eq_refl eq_refl eq_refl).
Defined.

(** ** Validation *)

Lemma falsy_spec (v : JsString) :
  falsy v = true <-> v = None \/ v = Some ""%string.
Proof.
  destruct v as [s|]; cbn.
  - rewrite String.eqb_eq. split.
    + intros ->. auto.
    + intros [H | H]; [discriminate | congruence].
  - split; auto.
Qed.

(** X18: a create action throws its validation error exactly when one of
    its required fields is undefined or the empty string: the email for
    [createUser], the title or the author for [createPost], the content,
    the post or the author for [createComment].  The name, the content of
    a post and the published flag are never required, and the state of the
    store and of the collaborators plays no part. *)
Theorem validation_exactly_when_missing (w : World) :
  (forall i,
     fst (createUser i w) = Throw (NewError "Email is required") <->
     cu_email i = None \/ cu_email i = Some ""%string) /\
  (forall i,
     fst (createPost i w) = Throw (NewError "Title and author are required") <->
     (cp_title i = None \/ cp_title i = Some ""%string) \/
     (cp_authorId i = None \/ cp_authorId i = Some ""%string)) /\
  (forall i,
     fst (createComment i w) =
       Throw (NewError "Content, post, and author are required") <->
     (cm_content i = None \/ cm_content i = Some ""%string) \/
     (cm_postId i = None \/ cm_postId i = Some ""%string) \/
     (cm_authorId i = None \/ cm_authorId i = Some ""%string)).
Proof.
  split; [|split]; intros i.
  - rewrite <- falsy_spec. rewrite createUser_eq.
    destruct (falsy (cu_email i)); [split; reflexivity|].
    split; [|discriminate].
    destruct (answer _ w) as [e|[u d]]; [|destruct (fault_at 1 w) as [e|]];
      cbn [fst]; try discriminate;
      destruct (createUser_message_generic e) as [-> | ->]; discriminate.
  - rewrite <- !falsy_spec, <- orb_true_iff. rewrite createPost_eq.
    destruct (falsy (cp_title i) || falsy (cp_authorId i));
      [split; reflexivity|].
    split; [|discriminate].
    destruct (fault_at 0 w); [discriminate|].
    destruct (find_user _ (db w)); [|discriminate].
    destruct (fault_at 1 w); [discriminate|].
    destruct (post_create _ _) as [e|[p d]]; [discriminate|].
    destruct (fault_at 2 w); discriminate.
  - rewrite <- !falsy_spec, <- !orb_true_iff, orb_assoc.
    rewrite createComment_eq.
    destruct (falsy (cm_content i) || falsy (cm_postId i) || falsy (cm_authorId i));
      [split; reflexivity|].
    split; [|discriminate].
    destruct (fault_at 0 w); [discriminate|].
    destruct (fault_at 1 w); [discriminate|].
    destruct (find_post _ (db w)); [|discriminate].
    destruct (find_user _ (db w)); [|discriminate].
    destruct (answer _ _) as [e|[c d]]; [discriminate|].
    destruct (fault_at 3 w); [discriminate|].
    destruct (fault_at 4 w); discriminate.
Qed.

Lemma validation_exactly_when_missing_witness :
  fst (createPost {| cp_title := Some "T"%string; cp_content := None;
                     cp_authorId := Some ""%string;
                     cp_published := Some true |} w2) =
    Throw (NewError "Title and author are required").
Proof.
  apply (proj2 (proj1 (proj2 (validation_exactly_when_missing w2))
                  {| cp_title := Some "T"%string; cp_content := None;
                     cp_authorId := Some ""%string;
                     cp_published := Some true |})).
  right. right. reflexivity.
Defined.

(** ** One call after another *)

Lemma createUser_ok_inv (i : CreateUserInput) (w : World) (u : User) :
  fst (createUser i w) = Ok u ->
  user_create (user_insert i) (db w) = inr (u, db (snd (createUser i w))) /\
  falsy (cu_email i) = false.
Proof.
  rewrite createUser_eq.
  destruct (falsy (cu_email i)); [discriminate|].
  destruct (answer _ w) as [e|[u' d]] eqn:Ha; [discriminate|].
  destruct (fault_at 1 w); [discriminate|].
  cbn [fst snd moved db]. intros H. injection H as ->.
  apply answer_inr in Ha. split; [apply Ha | reflexivity].
Qed.

Lemma createPost_ok_inv (i : CreatePostInput) (w : World) (p : PostOut) :
  fst (createPost i w) = Ok p ->
  post_create (post_insert i) (db w) = inr (p, db (snd (createPost i w))) /\
  post_input_ok i = true.
Proof.
  rewrite createPost_eq. unfold post_input_ok.
  destruct (falsy (cp_title i) || falsy (cp_authorId i)); [discriminate|].
  destruct (fault_at 0 w); [discriminate|].
  destruct (find_user _ (db w)); [|discriminate].
  destruct (fault_at 1 w); [discriminate|].
  destruct (post_create _ _) as [e|[p' d]] eqn:E; [discriminate|].
  destruct (fault_at 2 w); [discriminate|].
  cbn [fst snd moved db]. intros H. injection H as ->.
  split; reflexivity.
Qed.

Lemma createComment_ok_inv (i : CreateCommentInput) (w : World)
    (c : CommentOut) :
  fst (createComment i w) = Ok c ->
  comment_create (comment_insert i) (db w) =
    inr (c, db (snd (createComment i w))) /\
  comment_input_ok i = true.
Proof.
  rewrite createComment_eq. unfold comment_input_ok.
  destruct (falsy (cm_content i) || falsy (cm_postId i) || falsy (cm_authorId i));
    [discriminate|].
  destruct (fault_at 0 w); [discriminate|].
  destruct (fault_at 1 w); [discriminate|].
  destruct (find_post _ (db w)); [|discriminate].
  destruct (find_user _ (db w)); [|discriminate].
  destruct (answer _ _) as [e|[c' d]] eqn:E; [discriminate|].
  destruct (fault_at 3 w); [discriminate|].
  destruct (fault_at 4 w); [discriminate|].
  cbn [fst snd moved db]. intros H. injection H as ->.
  apply answer_inr in E. split; [apply E | reflexivity].
Qed.

Lemma find_last {A : Type} (f : A -> bool) (l : list A) (a : A) :
  f a = true -> exists b, find f (l ++ [a]) = Some b.
Proof.
  intros Ha. induction l as [|x l IH]; cbn.
  - rewrite Ha. eauto.
  - destruct (f x); eauto.
Qed.

Lemma find_after_none {A : Type} (f : A -> bool) (l l' : list A) :
  find f l = None -> find f (l ++ l') = find f l'.
Proof.
  induction l as [|x l IH]; cbn; [reflexivity|].
  destruct (f x); [discriminate | exact IH].
Qed.

Lemma user_create_id (a : UserCreateArgs) (d d' : DB) (u : User) :
  user_create a d = inr (u, d') -> user_id u = fresh_id d.
Proof.
  unfold user_create. destruct (email_taken _ d); [discriminate|].
  intros H. injection H as <- <-. reflexivity.
Qed.

Lemma post_create_id (a : PostCreateArgs) (d d' : DB) (p : PostOut) :
  post_create a d = inr (p, d') -> post_id (po_row p) = fresh_id d.
Proof.
  unfold post_create. destruct (find_user _ d); [|discriminate].
  intros H. injection H as <- <-. reflexivity.
Qed.

Lemma fresh_id_truthy (d : DB) : falsy (Some (fresh_id d)) = false.
Proof. reflexivity. Qed.

Lemma no_rows_of_unknown_user (id : string) (d : DB) :
  consistent d = true -> find_user id d = None ->
  posts_of_user id d = [] /\ comments_of_user id d = [].
Proof.
  intros Hc Hn. apply consistent_spec in Hc. destruct Hc as [Hp Hcm].
  unfold posts_of_user, comments_of_user. split.
  - destruct (filter _ (posts d)) as [|p l] eqn:E; [reflexivity|].
    assert (Hin : In p (filter (fun p => String.eqb (post_authorId p) id)
                               (posts d))) by (rewrite E; left; reflexivity).
    apply filter_In in Hin. destruct Hin as [Hin Heq].
    apply String.eqb_eq in Heq. specialize (Hp p Hin).
    unfold known_user in Hp. rewrite Heq, Hn in Hp. discriminate.
  - destruct (filter _ (comments d)) as [|c l] eqn:E; [reflexivity|].
    assert (Hin : In c (filter (fun c => String.eqb (comment_authorId c) id)
                               (comments d))) by (rewrite E; left; reflexivity).
    apply filter_In in Hin. destruct Hin as [Hin Heq].
    apply String.eqb_eq in Heq. destruct (Hcm c Hin) as [_ K].
    unfold known_user in K. rewrite Heq, Hn in K. discriminate.
Qed.

(** X19: a user [createUser] has returned is found by [getUserById] under
    the id it was given, as long as the store answers.  When that id was
    not in use before, the row found is the user returned; when the store
    was consistent as well, it is found with no posts, no comments and both
    counts at zero. *)
Theorem created_user_is_found (i : CreateUserInput) (w : World) (u : User) :
  fst (createUser i w) = Ok u ->
  next_fault (snd (createUser i w)) = None ->
  exists out,
    fst (getUserById (user_id u) (snd (createUser i w))) = Ok out /\
    user_id (uo_row out) = user_id u /\
    (find_user (user_id u) (db w) = None ->
       uo_row out = u /\
       (consistent (db w) = true ->
          uo_posts out = Some [] /\
          uo_comments out = Some [] /\
          uo_count out = Some {| cnt_comments := Some 0%nat;
                                 cnt_posts := Some 0%nat |})).
Proof.
  intros Hok Hf.
  apply createUser_ok_inv in Hok. destruct Hok as [Hc _].
  set (w1 := snd (createUser i w)) in *.
  apply user_create_inserts in Hc. destruct Hc as (Hu & Hp & Hcm & _).
  rewrite getUserById_eq, Hf.
  unfold user_findUnique, getUserById_query. cbn [ufu_where_id ufu_include].
  assert (Hex : exists b, find_user (user_id u) (db w1) = Some b).
  { unfold find_user. rewrite Hu. apply find_last. apply String.eqb_refl. }
  destruct Hex as (b & Hb). rewrite Hb. cbn [option_map fst].
  eexists. split; [reflexivity|]. cbn [uo_row].
  pose proof (find_user_some _ _ _ Hb) as [Hid _].
  split; [exact Hid|].
  intros Hfresh.
  assert (b = u) as ->.
  { unfold find_user in Hb, Hfresh. rewrite Hu in Hb.
    rewrite (find_after_none _ _ _ Hfresh) in Hb. cbn in Hb.
    rewrite String.eqb_refl in Hb. congruence. }
  split; [reflexivity|].
  intros Hcons.
  destruct (no_rows_of_unknown_user _ _ Hcons Hfresh) as [E1 E2].
  unfold load_user. cbn.
  unfold posts_of_user, comments_of_user in *. rewrite Hp, Hcm, E1, E2.
  repeat split; reflexivity.
Qed.

Lemma created_user_is_found_witness :
  exists out,
    fst (getUserById "id_0" w1) = Ok out /\
    uo_posts out = Some [] /\ uo_comments out = Some [].
Proof.
  destruct (created_user_is_found alice (idle empty_db)
              {| user_id := "id_0"; user_email := "a@x.com";
                 user_name := Some "Alice"%string; user_createdAt := 0 |}
              eq_refl eq_refl) as (out & R & _ & F).
  destruct (F eq_refl) as (_ & C).
  destruct (C eq_refl) as (P & Cm & _).
  exists out. repeat split; assumption.
Defined.

(** X20: a user [createUser] has returned can author a post: with a title
    present and no collaborator failing, [createPost] called next with the
    id of that user returns a post of that author. *)
Theorem created_user_can_post (i : CreateUserInput) (w : World) (u : User)
    (title : JsString) (content : option string) (published : option bool) :
  fst (createUser i w) = Ok u ->
  falsy title = false ->
  fault_at 0 (snd (createUser i w)) = None ->
  fault_at 1 (snd (createUser i w)) = None ->
  fault_at 2 (snd (createUser i w)) = None ->
  exists p,
    fst (createPost {| cp_title := title; cp_content := content;
                       cp_authorId := Some (user_id u);
                       cp_published := published |}
                    (snd (createUser i w))) = Ok p /\
    post_authorId (po_row p) = user_id u /\
    post_title (po_row p) = str title.
Proof.
  intros Hok Ht H0 H1 H2.
  apply createUser_ok_inv in Hok. destruct Hok as [Hc _].
  set (w1 := snd (createUser i w)) in *.
  pose proof (user_create_id _ _ _ _ Hc) as Hid.
  apply user_create_inserts in Hc. destruct Hc as (Hu & _).
  assert (Hex : exists b, find_user (user_id u) (db w1) = Some b).
  { unfold find_user. rewrite Hu. apply find_last. apply String.eqb_refl. }
  destruct Hex as (b & Hb).
  set (j := {| cp_title := title; cp_content := content;
               cp_authorId := Some (user_id u); cp_published := published |}).
  assert (Hj : post_input_ok j = true).
  { unfold post_input_ok, j. cbn [cp_title cp_authorId].
    rewrite Ht, Hid, fresh_id_truthy. reflexivity. }
  destruct (createPost_returns j w1 b Hj Hb H0 H1 H2) as (p & Hp).
  exists p. split; [exact Hp|].
  apply createPost_ok_inv in Hp. destruct Hp as [Hp _].
  apply post_create_result in Hp. destruct Hp as (T & _ & _ & A & _).
  split; [exact A | exact T].
Qed.

Lemma created_user_can_post_witness :
  exists p,
    fst (createPost post_T w1) = Ok p /\
    post_authorId (po_row p) = "id_0"%string.
Proof.
  destruct (created_user_can_post alice (idle empty_db)
              {| user_id := "id_0"; user_email := "a@x.com";
                 user_name := Some "Alice"%string; user_createdAt := 0 |}
              (Some "T"%string) None None
              eq_refl eq_refl eq_refl eq_refl eq_refl) as (p & R & A & _).
  exists p. split; [exact R | exact A].
Defined.

(** X21: a post [createPost] has returned can be commented by its author:
    with a content present and no collaborator failing, [createComment]
    called next with the id of that post and the author of the post returns
    a comment of that post. *)
Theorem created_post_can_be_commented (i : CreatePostInput) (w : World)
    (p : PostOut) (content : JsString) :
  fst (createPost i w) = Ok p ->
  falsy content = false ->
  fault_at 0 (snd (createPost i w)) = None ->
  fault_at 1 (snd (createPost i w)) = None ->
  fault_at 2 (snd (createPost i w)) = None ->
  fault_at 3 (snd (createPost i w)) = None ->
  fault_at 4 (snd (createPost i w)) = None ->
  exists c,
    fst (createComment {| cm_content := content;
                          cm_postId := Some (post_id (po_row p));
                          cm_authorId := cp_authorId i |}
                       (snd (createPost i w))) = Ok c /\
    comment_postId (co_row c) = post_id (po_row p) /\
    comment_authorId (co_row c) = post_authorId (po_row p).
Proof.
  intros Hok Hct H0 H1 H2 H3 H4.
  apply createPost_ok_inv in Hok. destruct Hok as [Hc Hi].
  set (w1 := snd (createPost i w)) in *.
  pose proof (post_create_id _ _ _ _ Hc) as Hid.
  pose proof (post_create_result _ _ _ _ Hc) as (_ & _ & _ & Ha & Hau).
  pose proof (post_create_inserts _ _ _ _ Hc) as (Hp & Hu & _).
  destruct (Hau eq_refl) as (author & _ & Hfa).
  cbn [post_insert pc_author_connect] in Hfa, Ha.
  assert (Hfa1 : find_user (str (cp_authorId i)) (db w1) = Some author).
  { unfold find_user in *. rewrite Hu. exact Hfa. }
  assert (Hex : exists b, find_post (post_id (po_row p)) (db w1) = Some b).
  { unfold find_post. rewrite Hp. apply find_last. apply String.eqb_refl. }
  destruct Hex as (b & Hb).
  set (j := {| cm_content := content; cm_postId := Some (post_id (po_row p));
               cm_authorId := cp_authorId i |}).
  assert (Hj : comment_input_ok j = true).
  { unfold comment_input_ok, j. cbn [cm_content cm_postId cm_authorId].
    rewrite Hct, Hid, fresh_id_truthy.
    unfold post_input_ok in Hi. apply negb_true_iff, orb_false_iff in Hi.
    destruct Hi as [_ ->]. reflexivity. }
  destruct (createComment_returns j w1 b author Hj Hb Hfa1 H0 H1 H2 H3 H4)
    as (c & Hcm).
  exists c. split; [exact Hcm|].
  apply createComment_ok_inv in Hcm. destruct Hcm as [Hcm _].
  apply comment_create_inserts in Hcm.
  destruct Hcm as (_ & _ & _ & _ & E1 & E2).
  split; [exact E1 | rewrite Ha; exact E2].
Qed.

Lemma created_post_can_be_commented_witness :
  exists c,
    fst (createComment comment_hi w2) = Ok c /\
    comment_postId (co_row c) = "id_1"%string.
Proof.
  destruct (created_post_can_be_commented post_T w1
              {| po_row := {| post_id := "id_1"; post_title := "T";
                              post_content := None; post_published := false;
                              post_authorId := "id_0"; post_createdAt := 1 |};
                 po_author := find_user "id_0" (db w1);
                 po_comments := None; po_count := None |}
              (Some "hi"%string)
              eq_refl eq_refl eq_refl eq_refl eq_refl eq_refl eq_refl)
    as (c & R & P & _).
  exists c. split; [exact R | exact P].
Defined.



(** X23: a comment [createComment] has returned is counted under its
    author: [getUserById] called next for the author, the store answering,
    returns a count of comments one above the number the author had, and
    the new comment in the list when the author had fewer than ten. *)
Theorem created_comment_is_counted (i : CreateCommentInput) (w : World)
    (c : CommentOut) :
  fst (createComment i w) = Ok c ->
  next_fault (snd (createComment i w)) = None ->
  exists out cs m,
    fst (getUserById (str (cm_authorId i)) (snd (createComment i w))) = Ok out /\
    uo_comments out = Some cs /\
    uo_count out =
      Some {| cnt_comments :=
                Some (S (length (comments_of_user (str (cm_authorId i)) (db w))));
              cnt_posts := Some m |} /\
    ((length (comments_of_user (str (cm_authorId i)) (db w)) < 10)%nat ->
     In (co_row c) cs).
Proof.
  intros Hok Hf.
  apply createComment_ok_inv in Hok. destruct Hok as [Hc _].
  set (w1 := snd (createComment i w)) in *.
  pose proof (comment_create_inserts _ _ _ _ Hc) as (Hcm & Hu & _ & _ & _ & Ha).
  cbn [comment_insert cc_author_connect] in Ha.
  assert (Hex : exists author,
            find_user (str (cm_authorId i)) (db w) = Some author).
  { unfold comment_create in Hc. cbn [comment_insert cc_author_connect
      cc_post_connect] in Hc.
    destruct (find_post _ (db w)); [|discriminate].
    destruct (find_user _ (db w)) as [a|]; [eauto | discriminate]. }
  destruct Hex as (author & Hfa).
  assert (Hfa1 : find_user (str (cm_authorId i)) (db w1) = Some author).
  { unfold find_user in *. rewrite Hu. exact Hfa. }
  apply find_user_some in Hfa. destruct Hfa as [Hid _].
  rewrite getUserById_eq, Hf.
  unfold user_findUnique, getUserById_query. cbn [ufu_where_id ufu_include].
  rewrite Hfa1. cbn [option_map fst].
  assert (Hcs : comments_of_user (user_id author) (db w1) =
                comments_of_user (str (cm_authorId i)) (db w) ++ [co_row c]).
  { unfold comments_of_user. rewrite Hcm, filter_app, Hid. cbn.
    rewrite Ha, String.eqb_refl. reflexivity. }
  unfold load_user, load_relation.
  cbn [uo_comments uo_count uo_row inc_comments inc_count option_map
       rel_orderBy rel_take order_by sel_posts sel_comments count_of].
  rewrite Hcs.
  do 3 eexists.
  split; [reflexivity|]. split; [reflexivity|]. split.
  - rewrite length_app. cbn [length]. rewrite Nat.add_1_r. reflexivity.
  - intros Hlt. cbn [take_rows Z.leb Z.compare Z.to_nat Pos.to_nat
                     Pos.iter_op Nat.add].
    rewrite firstn_all2.
    + apply (Permutation_in _ (Permutation_sym (sort_rows_perm _ _ _))).
      apply in_or_app. right. left. reflexivity.
    + rewrite (Permutation_length (sort_rows_perm _ _ _)), length_app.
      cbn [length]. change (Z.to_nat 10) with 10%nat. lia.
Qed.

Lemma created_comment_is_counted_witness :
  exists out cs,
    fst (getUserById "id_0" w3) = Ok out /\
    uo_comments out = Some cs /\
    In {| comment_id := "id_2"; comment_content := "hi";
          comment_postId := "id_1"; comment_authorId := "id_0";
          comment_createdAt := 2 |} cs.
Proof.
  destruct (created_comment_is_counted comment_hi w2
              {| co_row := {| comment_id := "id_2"; comment_content := "hi";
                              comment_postId := "id_1";
                              comment_authorId := "id_0";
                              comment_createdAt := 2 |};
                 co_author := find_user "id_0" (db w2);
                 co_post := find_post "id_1" (db w2) |}
              eq_refl eq_refl) as (out & cs & m & R & C & _ & I).
  exists out, cs. split; [exact R|]. split; [exact C|].
  apply I. cbn. lia.
Defined.

(** X24: a comment [createComment] has returned shows on its post:
    whenever [getPosts] called next, with any limit, returns the post the
    comment was made on, it returns it with the new comment in its list. *)
Theorem created_comment_shows_on_post (i : CreateCommentInput) (w : World)
    (c : CommentOut) (limit : option Z) (out : list PostOut) :
  fst (createComment i w) = Ok c ->
  fst (getPosts limit (snd (createComment i w))) = Ok out ->
  forall o, In o out -> post_id (po_row o) = str (cm_postId i) ->
    exists cs, po_comments o = Some cs /\ In (co_row c) (map co_row cs).
Proof.
  intros Hok Hget o Ho Hid.
  apply createComment_ok_inv in Hok. destruct Hok as [Hc _].
  set (w1 := snd (createComment i w)) in *.
  pose proof (comment_create_inserts _ _ _ _ Hc) as (Hcm & _ & _ & _ & Hp & _).
  cbn [comment_insert cc_post_connect] in Hp.
  rewrite getPosts_eq in Hget. destruct (next_fault w1); [discriminate|].
  cbn [fst] in Hget. injection Hget as <-.
  unfold post_findMany, getPosts_query in Ho.
  cbn [pfm_take pfm_orderBy pfm_include order_by] in Ho.
  apply in_map_iff in Ho. destruct Ho as (p & <- & _).
  cbn [po_row load_post] in Hid.
  unfold load_post.
  cbn [po_comments pinc_comments option_map ci_take ci_orderBy
       ci_include_author order_by take_rows].
  eexists. split; [reflexivity|].
  rewrite rows_of_loaded_comments.
  apply (Permutation_in _ (Permutation_sym (sort_rows_perm _ _ _))).
  unfold comments_of_post. apply filter_In. split.
  - rewrite Hcm. apply in_or_app. right. left. reflexivity.
  - rewrite Hp, Hid. apply String.eqb_refl.
Qed.

Lemma created_comment_shows_on_post_witness :
  exists cs,
    po_comments
      (load_post (db w3) (pfm_include (getPosts_query 5))
         {| post_id := "id_1"; post_title := "T"; post_content := None;
            post_published := false; post_authorId := "id_0";
            post_createdAt := 1 |}) = Some cs /\
    In {| comment_id := "id_2"; comment_content := "hi";
          comment_postId := "id_1"; comment_authorId := "id_0";
          comment_createdAt := 2 |} (map co_row cs).
Proof.
  refine (created_comment_shows_on_post comment_hi w2
            {| co_row := {| comment_id := "id_2"; comment_content := "hi";
                            comment_postId := "id_1";
                            comment_authorId := "id_0";
                            comment_createdAt := 2 |};
               co_author := find_user "id_0" (db w2);
               co_post := find_post "id_1" (db w2) |}
            None _ eq_refl eq_refl
            (load_post (db w3) (pfm_include (getPosts_query 5))
               {| post_id := "id_1"; post_title := "T"; post_content := None;
                  post_published := false; post_authorId := "id_0";
                  post_createdAt := 1 |})
            _ eq_refl).
  left. reflexivity.
Defined.

(** X25: when the insert of [createUser] fails, whether the store refuses
    a taken email or fails otherwise, the call stops there: the insert is
    the only call issued, no page regeneration is signalled and the rows
    are unchanged. *)
Theorem createUser_insert_failure (i : CreateUserInput) (w : World)
    (e : ForeignError) :
  falsy (cu_email i) = false ->
  answer (user_create (user_insert i)) w = inl e ->
  issued (createUser i) w = [EvStore (UserCreate (user_insert i))] /\
  db (snd (createUser i w)) = db w.
Proof.
  intros Hf Ha. unfold issued. rewrite createUser_eq, Hf, Ha.
  cbn [snd moved trace db]. rewrite skipn_exact. split; reflexivity.
Qed.

Lemma createUser_insert_failure_witness :
  issued (createUser alice) w1 = [EvStore (UserCreate (user_insert alice))] /\
  db (snd (createUser alice w1)) = db w1.
Proof.
  exact (createUser_insert_failure alice w1 unique_violation
           eq_refl eq_refl).
Defined.

(** ** What a truncated result leaves out *)

Lemma sorted_halves {A : Type} (R : A -> A -> Prop) (l1 l2 : list A) :
  StronglySorted R (l1 ++ l2) ->
  forall a b, In a l1 -> In b l2 -> R a b.
Proof.
  induction l1 as [|x l1 IH]; cbn; intros H a b Ha Hb; [destruct Ha|].
  apply StronglySorted_inv in H. destruct H as [Hs Hx].
  destruct Ha as [<- | Ha].
  - rewrite Forall_forall in Hx. apply Hx, in_or_app. right. exact Hb.
  - eapply IH; eauto.
Qed.

Lemma newest_kept {A : Type} (key : A -> Z) (n : nat) (l : list A) :
  exists rest,
    Permutation (firstn n (sort_rows key Desc l) ++ rest) l /\
    forall a b, In a (firstn n (sort_rows key Desc l)) -> In b rest ->
                key b <= key a.
Proof.
  exists (skipn n (sort_rows key Desc l)). split.
  - rewrite firstn_skipn. apply sort_rows_perm.
  - apply (sorted_halves (fun a b => key b <= key a)).
    rewrite firstn_skipn. apply sort_desc_newest_first.
Qed.

(** X26: what a limit cuts off is the oldest.  The posts [getPosts]
    returns for a limit that is not negative, together with posts that are
    each no newer than any returned one, make up the posts of the store;
    likewise the comments [getUserById] returns are the user's newest, the
    ones left out being no newer than any returned one. *)
Theorem truncation_keeps_newest (w : World) :
  (forall limit out, 0 <= limit ->
     fst (getPosts (Some limit) w) = Ok out ->
     exists rest,
       Permutation (map po_row out ++ rest) (posts (db w)) /\
       forall p q, In p (map po_row out) -> In q rest ->
                   post_createdAt q <= post_createdAt p) /\
  (forall id out, fst (getUserById id w) = Ok out ->
     exists cs rest,
       uo_comments out = Some cs /\
       Permutation (cs ++ rest) (comments_of_user id (db w)) /\
       forall c q, In c cs -> In q rest ->
                   comment_createdAt q <= comment_createdAt c).
Proof.
  split.
  - intros limit out Hl. rewrite getPosts_eq.
    destruct (next_fault w); [discriminate|].
    cbn [default fst]. intros H. injection H as <-.
    unfold post_findMany, getPosts_query.
    cbn [pfm_take pfm_orderBy pfm_include order_by].
    rewrite take_rows_nonneg by assumption.
    rewrite rows_of_loaded_posts. apply newest_kept.
  - intros id out. rewrite getUserById_eq.
    destruct (next_fault w); [discriminate|].
    unfold user_findUnique, getUserById_query. cbn [ufu_where_id ufu_include].
    destruct (find_user id (db w)) as [u|] eqn:E; cbn [option_map fst];
      [|discriminate].
    apply find_user_some in E. destruct E as [<- _].
    intros H. injection H as <-.
    destruct (newest_kept comment_createdAt 10
                (comments_of_user (user_id u) (db w))) as (rest & P & N).
    exists (firstn 10 (sort_rows comment_createdAt Desc
                         (comments_of_user (user_id u) (db w)))), rest.
    split; [reflexivity|]. split; assumption.
Qed.

Lemma truncation_keeps_newest_witness :
  exists rest,
    Permutation
      (map po_row (post_findMany (getPosts_query 0) (db w3)) ++ rest)
      (posts (db w3)).
Proof.
  destruct (proj1 (truncation_keeps_newest (idle (db w3))) 0
              (post_findMany (getPosts_query 0) (db w3)))
    as (rest & P & _).
  - lia.
  - reflexivity.
  - exists rest. exact P.
Defined.
